(** * LCA calculation engine: a shallow embedding and its properties

    The engine of the LCA tool (the module exporting
    [validateAndApplyBenchmarks], [calculateGWP], [calculateMCI],
    [calculateSustainabilityScore], [identifyHotspots] and
    [generateLCAResult]) is embedded function by function.

    Conventions of the embedding.
    - A JavaScript [number] is a rational ([Q]): arithmetic is exact, and
      there is no rounding to binary64, no overflow, no [NaN].  The only
      way the engine could leave the finite numbers from finite inputs is a
      division by zero, so a division by a variable divisor is [JS.div],
      which yields [None] there; divisions by a non-zero literal stay in
      [Q].  Functions that divide by a variable live in the [option] monad.
    - [===] on numbers is [Qeq_bool]: it compares values, not
      representations.
    - A string is a [string] of bytes, read as UTF-8.
    - An array is a [list]; an optional field is an [option]. *)

From stdpp Require Import base option list strings gmap pretty.
From Stdlib Require Import QArith Qround Qminmax Lqa Lia ZArith Permutation.

Open Scope Q_scope.

(** ** JavaScript primitives *)

Module JS.

(** [x === y] on numbers. *)
Definition seq (x y : Q) : bool := Qeq_bool x y.

(** [x > y], [x < y], [x >= y]. *)
Definition gt (x y : Q) : bool := negb (Qle_bool x y).
Definition lt (x y : Q) : bool := negb (Qle_bool y x).
Definition ge (x y : Q) : bool := Qle_bool y x.

(** Truthiness of a number: every number but zero. *)
Definition truthy (x : Q) : bool := negb (Qeq_bool x 0).

(** [x || d] on numbers. *)
Definition or (x d : Q) : Q := if truthy x then x else d.

(** [t[k] || d] where the lookup [t[k]] may be [undefined]. *)
Definition or_undefined (x : option Q) (d : Q) : Q :=
  match x with
  | Some v => or v d
  | None => d
  end.

(** [Math.round]: the nearest integer, ties towards plus infinity. *)
Definition Math_round (x : Q) : Q := inject_Z (Qfloor (x + (1 # 2))).

Definition Math_max (x y : Q) : Q := Qmax x y.
Definition Math_min (x y : Q) : Q := Qmin x y.

(** [x / y] for a divisor that is not a literal: no value when [y] is 0
    (JavaScript would produce an infinity or [NaN]). *)
Definition div (x y : Q) : option Q :=
  if Qeq_bool y 0 then None else Some (x / y).

(** Decimal digits of a natural number, left-padded with zeros to at
    least [width] characters. *)
Fixpoint zeros (n : nat) : string :=
  match n with
  | O => ""
  | S n' => "0" +:+ zeros n'
  end.

Definition pad_left (width : nat) (s : string) : string :=
  zeros (width - String.length s) +:+ s.

(** [x.toFixed(digits)], for |x| below 10^21: sign, then the integer [n]
    nearest to |x| * 10^digits (the larger one on a tie), printed with
    [digits] decimals. *)
Definition toFixed (x : Q) (digits : nat) : string :=
  let sign := if lt x 0 then "-" else "" in
  let ax := if lt x 0 then - x else x in
  let n := Qfloor (ax * inject_Z (10 ^ Z.of_nat digits) + (1 # 2)) in
  let m := pad_left (S digits) (pretty (Z.to_N n)) in
  let k := (String.length m - digits)%nat in
  match digits with
  | O => sign +:+ m
  | _ => sign +:+ String.substring 0 k m +:+ "." +:+ String.substring k digits m
  end.

(** String conversion of a number holding an integer (template
    literals interpolate [contribution], a [Math.round] result). *)
Definition toString_int (x : Q) : string := pretty (Qfloor x).

(** Strings as code lists, for the character-level operations. *)
Definition codes (s : string) : list N :=
  map Ascii.N_of_ascii (String.list_ascii_of_string s).
Definition of_codes (l : list N) : string :=
  String.string_of_list_ascii (map Ascii.ascii_of_N l).

(** [s.toLowerCase()].  ASCII capitals are shifted; U+0130 and U+212A
    are the two characters beyond ASCII whose lower case contains an
    ASCII letter (i followed by U+0307, and k).  Every other character
    beyond ASCII stays beyond ASCII and is left as it is. *)
Fixpoint toLowerCase_codes (l : list N) : list N :=
  match l with
  | [] => []
  | 196%N :: 176%N :: r => 105%N :: 204%N :: 135%N :: toLowerCase_codes r
  | 226%N :: 132%N :: 170%N :: r => 107%N :: toLowerCase_codes r
  | c :: r =>
      (if (65 <=? c)%N && (c <=? 90)%N then (c + 32)%N else c)
        :: toLowerCase_codes r
  end.

Definition toLowerCase (s : string) : string :=
  of_codes (toLowerCase_codes (codes s)).

(** [s.replace(/[^a-z0-9]/g, '')]. *)
Definition is_lower_alnum (c : N) : bool :=
  ((97 <=? c)%N && (c <=? 122)%N) || ((48 <=? c)%N && (c <=? 57)%N).

Definition strip_non_alnum (s : string) : string :=
  of_codes (filter (fun c => is_lower_alnum c = true) (codes s)).

(** [s.includes(key)]. *)
Fixpoint includes (s key : string) : bool :=
  String.prefix key s
  || match s with
     | EmptyString => false
     | String _ s' => includes s' key
     end.

(** White space removed by [trim]: the ASCII controls 9 to 13, the
    space, and the Unicode spaces, line separators and the byte order
    mark in their UTF-8 encodings. *)
Definition ws1 (a : N) : bool :=
  ((9 <=? a)%N && (a <=? 13)%N) || (a =? 32)%N.
Definition ws2 (a b : N) : bool := (a =? 194)%N && (b =? 160)%N.
Definition ws3 (a b c : N) : bool :=
  ((a =? 225)%N && (b =? 154)%N && (c =? 128)%N)
  || ((a =? 226)%N && (b =? 128)%N
      && (((128 <=? c)%N && (c <=? 138)%N)
          || (c =? 168)%N || (c =? 169)%N || (c =? 175)%N))
  || ((a =? 226)%N && (b =? 129)%N && (c =? 159)%N)
  || ((a =? 227)%N && (b =? 128)%N && (c =? 128)%N)
  || ((a =? 239)%N && (b =? 187)%N && (c =? 191)%N).

Fixpoint trimStart_codes (l : list N) : list N :=
  match l with
  | a :: r1 =>
      if ws1 a then trimStart_codes r1
      else match r1 with
           | b :: r2 =>
               if ws2 a b then trimStart_codes r2
               else match r2 with
                    | c :: r3 =>
                        if ws3 a b c then trimStart_codes r3 else l
                    | [] => l
                    end
           | [] => l
           end
  | [] => []
  end.

(** The same from the end, on the reversed code list. *)
Fixpoint trimEnd_rev (l : list N) : list N :=
  match l with
  | c :: r1 =>
      if ws1 c then trimEnd_rev r1
      else match r1 with
           | b :: r2 =>
               if ws2 b c then trimEnd_rev r2
               else match r2 with
                    | a :: r3 =>
                        if ws3 a b c then trimEnd_rev r3 else l
                    | [] => l
                    end
           | [] => l
           end
  | [] => []
  end.

Definition trim (s : string) : string :=
  of_codes (rev (trimEnd_rev (rev (trimStart_codes (codes s))))).

(** Truthiness of a string: every string but the empty one. *)
Definition truthy_string (s : string) : bool := negb (String.eqb s "").

End JS.

(** ** Data model (the interfaces of [types/lca.ts]) *)

Module RawMaterial.
Record t := mk { name : string; quantity : Q; unit : string; source : string }.
End RawMaterial.

Module EnergyInput.
(** [type] is declared as a union of five literals; the engine looks it
    up with a fallback, so it is kept as the string it is at run time. *)
Record t := mk { type : string; amount : Q; unit : string }.
End EnergyInput.

Module Emission.
Record t := mk { type : string; amount : Q; unit : string }.
End Emission.

Module WaterUsage.
Record t := mk { consumption : Q; discharge : Q; recycled : Q; unit : string }.
End WaterUsage.

Module Transport.
Inductive mode_t := truck | rail | ship | air.
Record t := mk { mode : mode_t; distance : Q; loadWeight : Q }.
End Transport.

Module WasteOutput.
Record t := mk { type : string; amount : Q; unit : string; recycled : Q }.
End WasteOutput.

Module LCAInput.
Record t := mk {
  projectName : string;
  processType : string;
  rawMaterials : list RawMaterial.t;
  energy : list EnergyInput.t;
  emissions : list Emission.t;
  water : WaterUsage.t;
  transport : list Transport.t;
  waste : option (list WasteOutput.t);
  companyName : option string
}.

(** Assignments to one field of a record. *)
Definition set_energy (v : list EnergyInput.t) (i : t) : t :=
  mk (projectName i) (processType i) (rawMaterials i) v (emissions i)
     (water i) (transport i) (waste i) (companyName i).
Definition set_water (v : WaterUsage.t) (i : t) : t :=
  mk (projectName i) (processType i) (rawMaterials i) (energy i)
     (emissions i) v (transport i) (waste i) (companyName i).
Definition set_transport (v : list Transport.t) (i : t) : t :=
  mk (projectName i) (processType i) (rawMaterials i) (energy i)
     (emissions i) (water i) v (waste i) (companyName i).
Definition set_projectName (v : string) (i : t) : t :=
  mk v (processType i) (rawMaterials i) (energy i) (emissions i)
     (water i) (transport i) (waste i) (companyName i).
End LCAInput.

Module ValidationWarning.
Record t := mk {
  field : string;
  message : string;
  usedBenchmark : bool;
  benchmarkValue : option Q
}.
End ValidationWarning.

Module ImpactResult.
Inductive status_t := good | warning | critical.
Record t := mk {
  category : string;
  value : Q;
  unit : string;
  benchmark : Q;
  status : status_t;
  description : string
}.
End ImpactResult.

Module Hotspot.
Record t := mk {
  area : string;
  impact : Q;
  contribution : Q;
  recommendation : string
}.
End Hotspot.

Module SDGAlignment.
Inductive alignment_t := positive | neutral | negative.
Record t := mk {
  sdg : Z;
  title : string;
  alignment : alignment_t;
  description : string
}.
End SDGAlignment.

Module SustainabilityScore.
Inductive grade_t := A | B | C | D | F.
Record t := mk {
  overall : Q;
  gwpScore : Q;
  energyScore : Q;
  waterScore : Q;
  wasteScore : Q;
  mciScore : Q;
  grade : grade_t
}.
End SustainabilityScore.

Module LCAResult.
Record t := mk {
  projectName : string;
  companyName : option string;
  timestamp : string;
  impacts : list ImpactResult.t;
  hotspots : list Hotspot.t;
  sdgAlignments : list SDGAlignment.t;
  recommendations : list string;
  circularEconomySuggestions : list string;
  overallScore : Q;
  sustainabilityScore : SustainabilityScore.t;
  validationWarnings : list ValidationWarning.t;
  aiRecommendations : option (list string);
  isAIPowered : bool
}.
End LCAResult.

(** ** Factor tables *)

(** A table with string keys, in insertion order; [t[k]] is the value of
    the table's own entry [k], [undefined] when there is none. *)
Fixpoint table_get (t : list (string * Q)) (k : string) : option Q :=
  match t with
  | [] => None
  | (k', v) :: t' => if String.eqb k' k then Some v else table_get t' k
  end.

Definition EMISSION_FACTORS : list (string * Q) :=
  [ ("electricity", 0.436); ("natural_gas", 2.02); ("diesel", 2.68);
    ("coal", 2.42); ("renewable", 0.012) ].

(** [EMISSION_FACTORS.electricity]. *)
Definition EMISSION_FACTORS_electricity : Q :=
  default 0 (table_get EMISSION_FACTORS "electricity").

Definition TRANSPORT_FACTORS (m : Transport.mode_t) : Q :=
  match m with
  | Transport.truck => 0.0621
  | Transport.rail => 0.0224
  | Transport.ship => 0.0082
  | Transport.air => 0.6023
  end.

Definition GWP_FACTORS : list (string * Q) :=
  [ ("co2", 1); ("ch4", 29.8); ("n2o", 273); ("sf6", 25200);
    ("hfc", 1530); ("pfc", 9200) ].

Definition WATER_FACTOR : Q := 0.344.

Module BENCHMARKS.
Definition electricity_per_tonne : Q := 500.
Definition water_per_tonne : Q := 5.
Definition emission_factor_default : Q := 1.5.
Definition transport_distance : Q := 200.
Definition waste_recycle_rate : Q := 0.3.
End BENCHMARKS.

(** ** The engine *)

Import LCAInput.

(** The callback of the [rawMaterials.reduce] calls of
    [validateAndApplyBenchmarks], [calculateMCI],
    [calculateSustainabilityScore] and [calculateSDGAlignment]:
    [(sum, m) => sum + (m.unit === 'tonnes' ? m.quantity * 1000 : m.quantity)]. *)
Definition add_material_kg (sum : Q) (m : RawMaterial.t) : Q :=
  sum + (if String.eqb (RawMaterial.unit m) "tonnes"
         then RawMaterial.quantity m * 1000
         else RawMaterial.quantity m).

Module Validated.
Record t := mk {
  validatedInput : LCAInput.t;
  warnings : list ValidationWarning.t
}.
End Validated.

(** The five guards of [validateAndApplyBenchmarks]. *)
Definition energy_missing (input : LCAInput.t) : bool :=
  (length (energy input) =? 0)%nat
  || forallb (fun e => JS.seq (EnergyInput.amount e) 0) (energy input).

Definition water_missing (input : LCAInput.t) : bool :=
  JS.seq (WaterUsage.consumption (water input)) 0.

Definition transport_missing (input : LCAInput.t) : bool :=
  (length (transport input) =? 0)%nat
  || forallb (fun t => JS.seq (Transport.distance t) 0) (transport input).

Definition emissions_missing (input : LCAInput.t) : bool :=
  (length (emissions input) =? 0)%nat
  || forallb (fun e => JS.seq (Emission.amount e) 0) (emissions input).

Definition projectName_missing (input : LCAInput.t) : bool :=
  negb (JS.truthy_string (projectName input))
  || String.eqb (JS.trim (projectName input)) "".

Definition validateAndApplyBenchmarks (input : LCAInput.t) : Validated.t :=
  let warnings : list ValidationWarning.t := [] in
  let validatedInput := input in
  let totalMaterialKg :=
    JS.or (fold_left add_material_kg (rawMaterials input) 0) 1000 in
  let '(validatedInput, warnings) :=
    if energy_missing input then
      let benchmarkEnergy :=
        (totalMaterialKg / 1000) * BENCHMARKS.electricity_per_tonne in
      (set_energy [EnergyInput.mk "electricity" benchmarkEnergy "kWh"]
         validatedInput,
       warnings ++
       [ValidationWarning.mk "Energy"
          ("No energy data provided. Using industry benchmark: "
             +:+ JS.toFixed benchmarkEnergy 0 +:+ " kWh")
          true (Some benchmarkEnergy)])
    else (validatedInput, warnings) in
  let '(validatedInput, warnings) :=
    if water_missing input then
      let benchmarkWater :=
        (totalMaterialKg / 1000) * BENCHMARKS.water_per_tonne in
      (set_water
         (WaterUsage.mk benchmarkWater
            (WaterUsage.discharge (water input))
            (WaterUsage.recycled (water input))
            (WaterUsage.unit (water input)))
         validatedInput,
       warnings ++
       [ValidationWarning.mk "Water"
          ("No water consumption data. Using industry benchmark: "
             +:+ JS.toFixed benchmarkWater 1 +:+ " m³")
          true (Some benchmarkWater)])
    else (validatedInput, warnings) in
  let '(validatedInput, warnings) :=
    if transport_missing input then
      (set_transport
         [Transport.mk Transport.truck BENCHMARKS.transport_distance
            totalMaterialKg]
         validatedInput,
       warnings ++
       [ValidationWarning.mk "Transport"
          ("No transport data. Using industry average: "
             +:+ JS.toString_int BENCHMARKS.transport_distance
             +:+ " km by truck")
          true (Some BENCHMARKS.transport_distance)])
    else (validatedInput, warnings) in
  let warnings :=
    if emissions_missing input then
      warnings ++
      [ValidationWarning.mk "Emissions"
         "No direct emissions specified. Only indirect emissions from energy will be calculated."
         false None]
    else warnings in
  let '(validatedInput, warnings) :=
    if projectName_missing input then
      (set_projectName "Unnamed LCA Project" validatedInput,
       warnings ++
       [ValidationWarning.mk "Project Name"
          "Project name was empty. Using default name."
          false None])
    else (validatedInput, warnings) in
  Validated.mk validatedInput warnings.

(** The per-entry terms of the GWP, as the bodies of the [forEach]
    callbacks of [calculateGWP] and [identifyHotspots] write them. *)
Definition energy_term (e : EnergyInput.t) : Q :=
  let factor :=
    JS.or_undefined (table_get EMISSION_FACTORS (EnergyInput.type e))
      EMISSION_FACTORS_electricity in
  EnergyInput.amount e * factor.

Definition emission_term (e : Emission.t) : Q :=
  let emissionType := JS.strip_non_alnum (JS.toLowerCase (Emission.type e)) in
  let gwpFactor :=
    JS.or_undefined
      (snd <$> List.find (fun entry => JS.includes emissionType (fst entry))
                 GWP_FACTORS)
      1 in
  Emission.amount e * gwpFactor.

Definition transport_term (t : Transport.t) : Q :=
  let factor := TRANSPORT_FACTORS (Transport.mode t) in
  (Transport.distance t * Transport.loadWeight t * factor) / 1000.

Definition calculateGWP (input : LCAInput.t) : Q :=
  let totalGWP := 0 in
  let totalGWP :=
    fold_left (fun totalGWP e => totalGWP + energy_term e)
      (energy input) totalGWP in
  let totalGWP :=
    fold_left (fun totalGWP e => totalGWP + emission_term e)
      (emissions input) totalGWP in
  let totalGWP :=
    fold_left (fun totalGWP t => totalGWP + transport_term t)
      (transport input) totalGWP in
  let totalGWP :=
    totalGWP + WaterUsage.consumption (water input) * WATER_FACTOR in
  JS.Math_round (totalGWP * 100) / 100.

Definition calculateEnergyIntensity (input : LCAInput.t) : option Q :=
  let totalEnergy :=
    fold_left
      (fun totalEnergy e =>
         if String.eqb (EnergyInput.unit e) "kWh"
         then totalEnergy + EnergyInput.amount e * 3.6
         else if String.eqb (EnergyInput.unit e) "MJ"
         then totalEnergy + EnergyInput.amount e
         else totalEnergy + EnergyInput.amount e * 3.6)
      (energy input) 0 in
  let totalMaterial :=
    fold_left
      (fun totalMaterial m =>
         if String.eqb (RawMaterial.unit m) "kg"
            || String.eqb (RawMaterial.unit m) "tonnes"
         then totalMaterial
              + (if String.eqb (RawMaterial.unit m) "tonnes"
                 then RawMaterial.quantity m * 1000
                 else RawMaterial.quantity m)
         else totalMaterial)
      (rawMaterials input) 0 in
  if JS.gt totalMaterial 0 then
    r ← JS.div totalEnergy totalMaterial;
    Some (JS.Math_round (r * 100) / 100)
  else Some 0.

Definition calculateWaterFootprint (input : LCAInput.t) : Q :=
  let netConsumption :=
    WaterUsage.consumption (water input) - WaterUsage.recycled (water input) in
  JS.Math_round (JS.Math_max 0 netConsumption * 100) / 100.

(** [input.waste?.length], as a condition. *)
Definition waste_present (input : LCAInput.t) : option (list WasteOutput.t) :=
  match waste input with
  | Some w => if (length w =? 0)%nat then None else Some w
  | None => None
  end.

(** [waste.reduce((sum, w) => sum + (w.recycled / Math.max(w.amount, 1)), 0)]. *)
Definition sum_waste_rates (w : list WasteOutput.t) : option Q :=
  fold_left
    (fun sum w =>
       sum ← sum;
       r ← JS.div (WasteOutput.recycled w)
             (JS.Math_max (WasteOutput.amount w) 1);
       Some (sum + r))
    w (Some 0).

Definition is_renewable (e : EnergyInput.t) : bool :=
  String.eqb (EnergyInput.type e) "renewable".

Definition calculateMCI (input : LCAInput.t) : option Q :=
  let totalMaterial := fold_left add_material_kg (rawMaterials input) 0 in
  if JS.seq totalMaterial 0 then Some 0 else
  waterRecycleRate ←
    (if JS.gt (WaterUsage.consumption (water input)) 0
     then JS.div (WaterUsage.recycled (water input))
            (WaterUsage.consumption (water input))
     else Some 0);
  let renewableEnergy := List.filter is_renewable (energy input) in
  let totalEnergy :=
    fold_left (fun sum e => sum + EnergyInput.amount e) (energy input) 0 in
  renewableShare ←
    (if JS.gt totalEnergy 0
     then JS.div
            (fold_left (fun sum e => sum + EnergyInput.amount e)
               renewableEnergy 0)
            totalEnergy
     else Some 0);
  wasteRecycleRate ←
    match waste_present input with
    | Some w =>
        s ← sum_waste_rates w;
        JS.div s (inject_Z (Z.of_nat (length w)))
    | None => Some BENCHMARKS.waste_recycle_rate
    end;
  let mci :=
    (waterRecycleRate * 0.3 + renewableShare * 0.3 + wasteRecycleRate * 0.4)
    * 100 in
  Some (JS.Math_round (JS.Math_min 100 mci * 10) / 10).

(** The local [wasteScore] of [calculateSustainabilityScore]:
    [wasteRecycleRate] is the mean waste rate times 100 when there is waste
    data, and [recycled / Math.max(consumption, 1)] times 100 otherwise. *)
Definition wasteScore_of (input : LCAInput.t) : option Q :=
  wasteRecycleRate ←
    match waste_present input with
    | Some w =>
        s ← sum_waste_rates w;
        r ← JS.div s (inject_Z (Z.of_nat (length w)));
        Some (r * 100)
    | None =>
        r ← JS.div (WaterUsage.recycled (water input))
              (JS.Math_max (WaterUsage.consumption (water input)) 1);
        Some (r * 100)
    end;
  Some (JS.Math_min 100 wasteRecycleRate).

Definition grade_of (overall : Q) : SustainabilityScore.grade_t :=
  if JS.ge overall 80 then SustainabilityScore.A
  else if JS.ge overall 65 then SustainabilityScore.B
  else if JS.ge overall 50 then SustainabilityScore.C
  else if JS.ge overall 35 then SustainabilityScore.D
  else SustainabilityScore.F.

Definition calculateSustainabilityScore
    (input : LCAInput.t) (gwp energyIntensity waterFootprint : Q)
    : option SustainabilityScore.t :=
  let totalMaterial :=
    JS.or (fold_left add_material_kg (rawMaterials input) 0) 1000 in
  r ← JS.div gwp totalMaterial;
  let gwpPerTonne := r * 1000 in
  let gwpScore := JS.Math_max 0 (JS.Math_min 100 (100 - gwpPerTonne / 20)) in
  let energyScore :=
    JS.Math_max 0 (JS.Math_min 100 (100 - energyIntensity / 1)) in
  r ← JS.div waterFootprint totalMaterial;
  let waterPerTonne := r * 1000 in
  let waterScore :=
    JS.Math_max 0 (JS.Math_min 100 (100 - waterPerTonne / 0.1)) in
  wasteScore ← wasteScore_of input;
  mciScore ← calculateMCI input;
  let overall :=
    JS.Math_round
      (gwpScore * 0.30 + energyScore * 0.25 + waterScore * 0.15
       + wasteScore * 0.15 + mciScore * 0.15) in
  let grade := grade_of overall in
  Some (SustainabilityScore.mk overall
          (JS.Math_round gwpScore) (JS.Math_round energyScore)
          (JS.Math_round waterScore) (JS.Math_round wasteScore)
          (JS.Math_round mciScore) grade).

(** [Array.prototype.sort] with a comparator: a stable sort, here by
    insertion.  [cmp a b > 0] places [a] after [b]. *)
Fixpoint sort_insert {A} (cmp : A -> A -> Q) (x : A) (l : list A) : list A :=
  match l with
  | [] => [x]
  | y :: l' =>
      if JS.gt (cmp x y) 0 then y :: sort_insert cmp x l' else x :: y :: l'
  end.

Definition Array_sort {A} (cmp : A -> A -> Q) (l : list A) : list A :=
  fold_right (sort_insert cmp) [] l.

Definition identifyHotspots (input : LCAInput.t) : option (list Hotspot.t) :=
  let hotspots : list Hotspot.t := [] in
  let totalGWP := calculateGWP input in
  if JS.seq totalGWP 0 then Some hotspots else
  let energyGWP :=
    fold_left (fun energyGWP e => energyGWP + energy_term e)
      (energy input) 0 in
  hotspots ←
    (if JS.gt energyGWP 0 then
       r ← JS.div energyGWP totalGWP;
       let contribution := r * 100 in
       Some (hotspots ++
             [Hotspot.mk "Energy Consumption" energyGWP
                (JS.Math_round contribution)
                (if JS.gt contribution 40
                 then "PRIORITY: Transition to renewable energy sources - potential 80%+ reduction"
                 else "Optimize energy efficiency through process improvements")])
     else Some hotspots);
  let transportGWP :=
    fold_left (fun transportGWP t => transportGWP + transport_term t)
      (transport input) 0 in
  hotspots ←
    (if JS.gt transportGWP 0 then
       r ← JS.div transportGWP totalGWP;
       let contribution := r * 100 in
       Some (hotspots ++
             [Hotspot.mk "Transportation" transportGWP
                (JS.Math_round contribution)
                (if JS.gt contribution 20
                 then "PRIORITY: Shift to rail/ship transport or optimize routes"
                 else "Consider local sourcing to reduce transport distances")])
     else Some hotspots);
  let directGWP :=
    fold_left (fun directGWP e => directGWP + emission_term e)
      (emissions input) 0 in
  hotspots ←
    (if JS.gt directGWP 0 then
       r ← JS.div directGWP totalGWP;
       let contribution := r * 100 in
       Some (hotspots ++
             [Hotspot.mk "Direct Process Emissions" directGWP
                (JS.Math_round contribution)
                (if JS.gt contribution 30
                 then "PRIORITY: Implement emission capture or process optimization"
                 else "Monitor and report emissions for continuous improvement")])
     else Some hotspots);
  let waterGWP := WaterUsage.consumption (water input) * WATER_FACTOR in
  hotspots ←
    (if JS.gt waterGWP 0 then
       r ← JS.div waterGWP totalGWP;
       let contribution := r * 100 in
       r ← JS.div (WaterUsage.recycled (water input))
             (WaterUsage.consumption (water input));
       let recycleRate := r * 100 in
       Some (hotspots ++
             [Hotspot.mk "Water Usage" waterGWP
                (JS.Math_round contribution)
                (if JS.lt recycleRate 50
                 then "Implement closed-loop water recycling systems"
                 else "Good recycling rate - focus on water treatment efficiency")])
     else Some hotspots);
  Some (Array_sort
          (fun a b => Hotspot.contribution b - Hotspot.contribution a)
          hotspots).

Definition calculateSDGAlignment (input : LCAInput.t) (gwp : Q)
    : option (list SDGAlignment.t) :=
  let alignments : list SDGAlignment.t := [] in
  let renewableEnergy := List.filter is_renewable (energy input) in
  let totalEnergy :=
    fold_left (fun sum e => sum + EnergyInput.amount e) (energy input) 0 in
  renewableShare ←
    (if JS.gt totalEnergy 0 then
       r ← JS.div
             (fold_left (fun sum e => sum + EnergyInput.amount e)
                renewableEnergy 0)
             totalEnergy;
       Some (r * 100)
     else Some 0);
  let alignments :=
    alignments ++
    [SDGAlignment.mk 9 "Industry, Innovation & Infrastructure"
       (if JS.gt renewableShare 30 then SDGAlignment.positive
        else if JS.gt renewableShare 10 then SDGAlignment.neutral
        else SDGAlignment.negative)
       (if JS.gt renewableShare 30
        then JS.toFixed renewableShare 0
               +:+ "% renewable energy supports sustainable industrialization"
        else "Opportunity to increase renewable energy adoption in operations")] in
  recycleRate ←
    (if JS.gt (WaterUsage.consumption (water input)) 0 then
       r ← JS.div (WaterUsage.recycled (water input))
             (WaterUsage.consumption (water input));
       Some (r * 100)
     else Some 0);
  let alignments :=
    alignments ++
    [SDGAlignment.mk 12 "Responsible Consumption & Production"
       (if JS.gt recycleRate 50 then SDGAlignment.positive
        else if JS.gt recycleRate 25 then SDGAlignment.neutral
        else SDGAlignment.negative)
       (if JS.gt recycleRate 50
        then "Excellent " +:+ JS.toFixed recycleRate 0
               +:+ "% water recycling rate supports circular economy"
        else "Implement circular economy practices for materials and water")] in
  let totalMaterial :=
    JS.or (fold_left add_material_kg (rawMaterials input) 0) 1 in
  r ← JS.div gwp totalMaterial;
  let gwpPerTonne := r * 1000 in
  let alignments :=
    alignments ++
    [SDGAlignment.mk 13 "Climate Action"
       (if JS.lt gwpPerTonne 500 then SDGAlignment.positive
        else if JS.lt gwpPerTonne 1000 then SDGAlignment.neutral
        else SDGAlignment.negative)
       (if JS.lt gwpPerTonne 500
        then "Low carbon intensity aligns with Paris Agreement goals"
        else "Carbon intensity of " +:+ JS.toFixed gwpPerTonne 0
               +:+ " kg CO2e/tonne - reduction opportunities exist")] in
  Some alignments.

Definition is_negative (s : SDGAlignment.t) : bool :=
  match SDGAlignment.alignment s with
  | SDGAlignment.negative => true
  | _ => false
  end.

(** [generateLCAResult(input, aiRecommendations)]; [now] stands for
    [new Date().toISOString()]. *)
Definition generateLCAResult
    (input : LCAInput.t) (aiRecommendations : option (list string))
    (now : string) : option LCAResult.t :=
  let validatedInput :=
    Validated.validatedInput (validateAndApplyBenchmarks input) in
  let warnings := Validated.warnings (validateAndApplyBenchmarks input) in
  let gwp := calculateGWP validatedInput in
  energyIntensity ← calculateEnergyIntensity validatedInput;
  let waterFootprint := calculateWaterFootprint validatedInput in
  hotspots ← identifyHotspots validatedInput;
  sdgAlignments ← calculateSDGAlignment validatedInput gwp;
  sustainabilityScore ←
    calculateSustainabilityScore validatedInput gwp energyIntensity
      waterFootprint;
  let impacts :=
    [ ImpactResult.mk "Global Warming Potential (GWP)" gwp "kg CO2e" 1000
        (if JS.lt gwp 500 then ImpactResult.good
         else if JS.lt gwp 1500 then ImpactResult.warning
         else ImpactResult.critical)
        "Total greenhouse gas emissions (IPCC AR6 factors)";
      ImpactResult.mk "Energy Intensity" energyIntensity "MJ/kg" 50
        (if JS.lt energyIntensity 30 then ImpactResult.good
         else if JS.lt energyIntensity 70 then ImpactResult.warning
         else ImpactResult.critical)
        "Energy consumed per unit of material processed";
      ImpactResult.mk "Water Footprint" waterFootprint "m³" 100
        (if JS.lt waterFootprint 50 then ImpactResult.good
         else if JS.lt waterFootprint 150 then ImpactResult.warning
         else ImpactResult.critical)
        "Net water consumption after recycling" ] in
  let recommendations :=
    [ match hotspots with
      | h :: _ =>
          if JS.gt (Hotspot.contribution h) 40
          then "PRIORITY: Address " +:+ Hotspot.area h +:+ " - contributing "
                 +:+ JS.toString_int (Hotspot.contribution h)
                 +:+ "% of total impact"
          else "No single hotspot dominates - focus on incremental improvements across all areas"
      | [] =>
          "No single hotspot dominates - focus on incremental improvements across all areas"
      end;
      match List.find is_negative sdgAlignments with
      | Some s =>
          "SDG Gap: " +:+ SDGAlignment.title s +:+ " needs attention"
      | None => "Strong SDG alignment across all measured goals"
      end;
      if JS.gt energyIntensity 50
      then "Consider energy audits to identify efficiency opportunities"
      else "Energy efficiency is performing well";
      if JS.lt (SustainabilityScore.mciScore sustainabilityScore) 30
      then "Improve material circularity through recycling and renewable inputs"
      else "Good circularity practices - continue optimization" ] in
  let circularEconomySuggestions :=
    [ "Implement industrial symbiosis - partner with nearby facilities for waste-to-resource exchanges";
      "Design for recyclability in product specifications";
      "Explore renewable energy PPAs (Power Purchase Agreements) for long-term decarbonization";
      "Consider carbon capture technologies for high-emission processes";
      "Optimize packaging and logistics for reduced material use" ] in
  Some (LCAResult.mk
          (LCAInput.projectName validatedInput)
          (LCAInput.companyName validatedInput)
          now
          impacts
          hotspots
          sdgAlignments
          recommendations
          circularEconomySuggestions
          (SustainabilityScore.overall sustainabilityScore)
          sustainabilityScore
          warnings
          aiRecommendations
          (match aiRecommendations with
           | Some l => (0 <? length l)%nat
           | None => false
           end)).

(** The input with every list empty and every number zero. *)
Definition empty_input : LCAInput.t :=
  LCAInput.mk "" "" [] [] [] (WaterUsage.mk 0 0 0 "m³") [] None None.

(** ** [validateAndApplyBenchmarks] on a store of objects

    The records above are values.  To speak about what the function writes,
    this section reads it once more over a store: the input record is an
    object whose array and [water] fields hold references, [{ ...input }]
    allocates a copy that shares those references, and the assignments to
    [validatedInput.energy], [.water], [.transport] and [.projectName]
    write to the copy. *)

Module Store.

Definition loc := positive.

Inductive object :=
| OInput (projectName processType : string)
    (rawMaterials energy emissions water transport : loc)
    (waste : option loc) (companyName : option string)
| OMaterials (a : list RawMaterial.t)
| OEnergy (a : list EnergyInput.t)
| OEmissions (a : list Emission.t)
| OWater (w : WaterUsage.t)
| OTransport (a : list Transport.t)
| OWaste (a : list WasteOutput.t).

(** What an object holds, when it is of the expected kind. *)
Definition as_materials (o : object) :=
  match o with OMaterials a => Some a | _ => None end.
Definition as_energy (o : object) :=
  match o with OEnergy a => Some a | _ => None end.
Definition as_emissions (o : object) :=
  match o with OEmissions a => Some a | _ => None end.
Definition as_water (o : object) :=
  match o with OWater w => Some w | _ => None end.
Definition as_transport (o : object) :=
  match o with OTransport a => Some a | _ => None end.
Definition as_waste (o : object) :=
  match o with OWaste a => Some a | _ => None end.

(** Following a reference. *)
Definition get {A} (sel : object -> option A) (σ : gmap loc object) (l : loc)
    : option A :=
  o ← σ !! l; sel o.

(** Following an optional reference ([waste] may be [undefined]). *)
Definition get_opt {A} (sel : object -> option A) (σ : gmap loc object)
    (l : option loc) : option (option A) :=
  match l with
  | None => Some None
  | Some l => a ← get sel σ l; Some (Some a)
  end.

(** The record value held at [p], every reference followed. *)
Definition read_input (σ : gmap loc object) (p : loc) : option LCAInput.t :=
  match σ !! p with
  | Some (OInput pn pt rm en em wa tr ws cn) =>
      rm ← get as_materials σ rm;
      en ← get as_energy σ en;
      em ← get as_emissions σ em;
      wa ← get as_water σ wa;
      tr ← get as_transport σ tr;
      ws ← get_opt as_waste σ ws;
      Some (LCAInput.mk pn pt rm en em wa tr ws cn)
  | _ => None
  end.

(** A new object at an unused location. *)
Definition alloc (σ : gmap loc object) (o : object) : loc * gmap loc object :=
  let l := fresh (dom σ) in (l, <[l := o]> σ).

(** [obj.energy = ref], and the like, on the object at [q]. *)
Definition assign_energy (q ref : loc) (σ : gmap loc object) :=
  alter (fun o => match o with
                  | OInput pn pt rm _ em wa tr ws cn =>
                      OInput pn pt rm ref em wa tr ws cn
                  | _ => o
                  end) q σ.
Definition assign_water (q ref : loc) (σ : gmap loc object) :=
  alter (fun o => match o with
                  | OInput pn pt rm en em _ tr ws cn =>
                      OInput pn pt rm en em ref tr ws cn
                  | _ => o
                  end) q σ.
Definition assign_transport (q ref : loc) (σ : gmap loc object) :=
  alter (fun o => match o with
                  | OInput pn pt rm en em wa _ ws cn =>
                      OInput pn pt rm en em wa ref ws cn
                  | _ => o
                  end) q σ.
Definition assign_projectName (q : loc) (v : string) (σ : gmap loc object) :=
  alter (fun o => match o with
                  | OInput _ pt rm en em wa tr ws cn =>
                      OInput v pt rm en em wa tr ws cn
                  | _ => o
                  end) q σ.

(** The function, statement by statement; [p] is the caller's record and
    the result holds the final store, the location of [validatedInput]
    and the warnings. *)
Definition validateAndApplyBenchmarks (σ : gmap loc object) (p : loc)
    : option (gmap loc object * loc * list ValidationWarning.t) :=
  let warnings : list ValidationWarning.t := [] in
  o ← σ !! p;
  let '(validatedInput, σ) := alloc σ o in
  input ← read_input σ p;
  let totalMaterialKg :=
    JS.or (fold_left add_material_kg (rawMaterials input) 0) 1000 in
  let '(σ, warnings) :=
    if energy_missing input then
      let benchmarkEnergy :=
        (totalMaterialKg / 1000) * BENCHMARKS.electricity_per_tonne in
      let '(a, σ) :=
        alloc σ (OEnergy [EnergyInput.mk "electricity" benchmarkEnergy "kWh"]) in
      (assign_energy validatedInput a σ,
       warnings ++
       [ValidationWarning.mk "Energy"
          ("No energy data provided. Using industry benchmark: "
             +:+ JS.toFixed benchmarkEnergy 0 +:+ " kWh")
          true (Some benchmarkEnergy)])
    else (σ, warnings) in
  input ← read_input σ p;
  let '(σ, warnings) :=
    if water_missing input then
      let benchmarkWater :=
        (totalMaterialKg / 1000) * BENCHMARKS.water_per_tonne in
      let '(w, σ) :=
        alloc σ (OWater (WaterUsage.mk benchmarkWater
                           (WaterUsage.discharge (water input))
                           (WaterUsage.recycled (water input))
                           (WaterUsage.unit (water input)))) in
      (assign_water validatedInput w σ,
       warnings ++
       [ValidationWarning.mk "Water"
          ("No water consumption data. Using industry benchmark: "
             +:+ JS.toFixed benchmarkWater 1 +:+ " m³")
          true (Some benchmarkWater)])
    else (σ, warnings) in
  input ← read_input σ p;
  let '(σ, warnings) :=
    if transport_missing input then
      let '(a, σ) :=
        alloc σ (OTransport
                   [Transport.mk Transport.truck
                      BENCHMARKS.transport_distance totalMaterialKg]) in
      (assign_transport validatedInput a σ,
       warnings ++
       [ValidationWarning.mk "Transport"
          ("No transport data. Using industry average: "
             +:+ JS.toString_int BENCHMARKS.transport_distance
             +:+ " km by truck")
          true (Some BENCHMARKS.transport_distance)])
    else (σ, warnings) in
  input ← read_input σ p;
  let warnings :=
    if emissions_missing input then
      warnings ++
      [ValidationWarning.mk "Emissions"
         "No direct emissions specified. Only indirect emissions from energy will be calculated."
         false None]
    else warnings in
  input ← read_input σ p;
  let '(σ, warnings) :=
    if projectName_missing input then
      (assign_projectName validatedInput "Unnamed LCA Project" σ,
       warnings ++
       [ValidationWarning.mk "Project Name"
          "Project name was empty. Using default name."
          false None])
    else (σ, warnings) in
  Some (σ, validatedInput, warnings).

End Store.

(** ** The input form and the page (the callers of the engine)

    Of [LCAInputForm.tsx] the state of the manual form, its add and remove
    handlers and [handleSubmit]; of [Index.tsx] the computation of
    [handleSubmit].  Toasts, navigation and rendering are left out: the
    model keeps what is stored in the state and what is passed on. *)

Module Form.

(** The [useState] cells of the form. *)
Record state := mk {
  projectName : string;
  processType : string;
  rawMaterials : list RawMaterial.t;
  energy : list EnergyInput.t;
  emissions : list Emission.t;
  transport : list Transport.t;
  water : WaterUsage.t
}.

Definition defaultWater : WaterUsage.t := WaterUsage.mk 0 0 0 "m³".

(** The initial values of the cells. *)
Definition initial : state :=
  mk "" ""
    [RawMaterial.mk "" 0 "kg" ""]
    [EnergyInput.mk "electricity" 0 "kWh"]
    [Emission.mk "CO2" 0 "kg"]
    [Transport.mk Transport.truck 0 0]
    defaultWater.

(** [rows.filter((_, i) => i !== index)]. *)
Fixpoint filter_index_from {A} (i index : nat) (rows : list A) : list A :=
  match rows with
  | [] => []
  | r :: rows' =>
      if negb (i =? index)%nat
      then r :: filter_index_from (S i) index rows'
      else filter_index_from (S i) index rows'
  end.

Definition filter_index {A} (index : nat) (rows : list A) : list A :=
  filter_index_from 0 index rows.

Definition handleAddRawMaterial (s : state) : state :=
  mk (projectName s) (processType s)
    (rawMaterials s ++ [RawMaterial.mk "" 0 "kg" ""])
    (energy s) (emissions s) (transport s) (water s).

Definition handleRemoveRawMaterial (index : nat) (s : state) : state :=
  if (1 <? length (rawMaterials s))%nat then
    mk (projectName s) (processType s)
      (filter_index index (rawMaterials s))
      (energy s) (emissions s) (transport s) (water s)
  else s.

Definition handleAddEnergy (s : state) : state :=
  mk (projectName s) (processType s) (rawMaterials s)
    (energy s ++ [EnergyInput.mk "electricity" 0 "kWh"])
    (emissions s) (transport s) (water s).

Definition handleRemoveEnergy (index : nat) (s : state) : state :=
  if (1 <? length (energy s))%nat then
    mk (projectName s) (processType s) (rawMaterials s)
      (filter_index index (energy s))
      (emissions s) (transport s) (water s)
  else s.

Definition handleAddEmission (s : state) : state :=
  mk (projectName s) (processType s) (rawMaterials s) (energy s)
    (emissions s ++ [Emission.mk "" 0 "kg"])
    (transport s) (water s).

Definition handleRemoveEmission (index : nat) (s : state) : state :=
  if (1 <? length (emissions s))%nat then
    mk (projectName s) (processType s) (rawMaterials s) (energy s)
      (filter_index index (emissions s))
      (transport s) (water s)
  else s.

Definition handleAddTransport (s : state) : state :=
  mk (projectName s) (processType s) (rawMaterials s) (energy s)
    (emissions s)
    (transport s ++ [Transport.mk Transport.truck 0 0])
    (water s).

Definition handleRemoveTransport (index : nat) (s : state) : state :=
  if (1 <? length (transport s))%nat then
    mk (projectName s) (processType s) (rawMaterials s) (energy s)
      (emissions s)
      (filter_index index (transport s))
      (water s)
  else s.

(** [handleSubmit]: [None] when the project name is blank (a toast, and
    [onSubmit] is not called), otherwise the record passed to
    [onSubmit]. *)
Definition handleSubmit (s : state) : option LCAInput.t :=
  if negb (JS.truthy_string (JS.trim (projectName s))) then None
  else
    Some (LCAInput.mk (projectName s) (processType s)
            (List.filter
               (fun m => JS.truthy_string (RawMaterial.name m)
                         && JS.gt (RawMaterial.quantity m) 0)
               (rawMaterials s))
            (List.filter (fun e => JS.gt (EnergyInput.amount e) 0) (energy s))
            (List.filter
               (fun e => JS.truthy_string (Emission.type e)
                         && JS.gt (Emission.amount e) 0)
               (emissions s))
            (water s)
            (List.filter (fun t => JS.gt (Transport.distance t) 0)
               (transport s))
            None None).

End Form.

Module Page.

(** [a || b] on strings that may be [undefined] or [null]. *)
Definition or_string (a : option string) (b : string) : string :=
  match a with
  | Some v => if JS.truthy_string v then v else b
  | None => b
  end.

(** [handleSubmit] of the page: the record with the company name filled
    in, analysed with an empty list of AI recommendations.  [displayName]
    is [user?.displayName]. *)
Definition handleSubmit (displayName : option string) (input : LCAInput.t)
    (now : string) : option LCAResult.t :=
  let inputWithCompany :=
    LCAInput.mk (LCAInput.projectName input) (LCAInput.processType input)
      (LCAInput.rawMaterials input) (LCAInput.energy input)
      (LCAInput.emissions input) (LCAInput.water input)
      (LCAInput.transport input) (LCAInput.waste input)
      (Some (or_string displayName
               (or_string (LCAInput.companyName input) ""))) in
  let aiRecommendations : list string := [] in
  generateLCAResult inputWithCompany (Some aiRecommendations) now.

End Page.

(** * Specification-side readings and sample inputs

    The definitions of this part follow the words of the specification,
    or name quantities and inputs that the statements below speak
    about; the engine above does not use them. *)

(** ** Sums *)

(** The sum of a list of numbers, which the [reduce] and [forEach] loops
    of the engine accumulate from the left. *)
Definition Qsum (l : list Q) : Q := fold_right Qplus 0 l.

(** ** Total material mass *)

(** The mass of one raw material in kg: tonnes times 1000, every other
    unit as it is. *)
Definition material_kg (m : RawMaterial.t) : Q :=
  if String.eqb (RawMaterial.unit m) "tonnes"
  then RawMaterial.quantity m * 1000
  else RawMaterial.quantity m.

(** The sum of the masses, and 1000 when that sum is 0. *)
Definition totalMaterialKg_spec (input : LCAInput.t) : Q :=
  let s := Qsum (map material_kg (rawMaterials input)) in
  if Qeq_bool s 0 then 1000 else s.

(** ** Warnings and inputs of the normaliser *)

(** The warnings of a given field. *)
Definition warnings_for (f : string) (ws : list ValidationWarning.t)
    : list ValidationWarning.t :=
  List.filter (fun w => String.eqb (ValidationWarning.field w) f) ws.

(** No zero or empty field: some energy amount, the water consumption,
    some transport distance and some emission amount are not zero, and the
    project name is not blank. *)
Definition no_zero_fields (input : LCAInput.t) : Prop :=
  (exists e, In e (energy input) /\ ~ EnergyInput.amount e == 0)
  /\ ~ WaterUsage.consumption (water input) == 0
  /\ (exists t, In t (transport input) /\ ~ Transport.distance t == 0)
  /\ (exists e, In e (emissions input) /\ ~ Emission.amount e == 0)
  /\ JS.trim (projectName input) <> "".

(** Every number of the input is zero or more. *)
Definition nonneg (x : Q) : bool := Qle_bool 0 x.

Definition nonneg_input (input : LCAInput.t) : bool :=
  forallb (fun m => nonneg (RawMaterial.quantity m)) (rawMaterials input)
  && forallb (fun e => nonneg (EnergyInput.amount e)) (energy input)
  && forallb (fun e => nonneg (Emission.amount e)) (emissions input)
  && nonneg (WaterUsage.consumption (water input))
  && nonneg (WaterUsage.discharge (water input))
  && nonneg (WaterUsage.recycled (water input))
  && forallb (fun t => nonneg (Transport.distance t)
                       && nonneg (Transport.loadWeight t))
       (transport input)
  && forallb (fun w => nonneg (WasteOutput.amount w)
                       && nonneg (WasteOutput.recycled w))
       (default [] (waste input)).

(** ** Global warming potential *)






(** The four category totals of the engine, and their sum: the total of
    [calculateGWP] before its rounding. *)
Definition energyGWP_of (input : LCAInput.t) : Q :=
  Qsum (map energy_term (energy input)).

Definition directGWP_of (input : LCAInput.t) : Q :=
  Qsum (map emission_term (emissions input)).

Definition transportGWP_of (input : LCAInput.t) : Q :=
  Qsum (map transport_term (transport input)).

Definition waterGWP_of (input : LCAInput.t) : Q :=
  WaterUsage.consumption (water input) * WATER_FACTOR.


(** ** Hotspots *)

(** The sum of the contributions of a list of hotspots. *)
Definition contribution_sum (hs : list Hotspot.t) : Q :=
  Qsum (map Hotspot.contribution hs).

(** What a category adds to that sum: its rounded share when its GWP is
    positive, nothing when it has no entry. *)
Definition category_contribution (g total : Q) : Q :=
  if JS.gt g 0 then JS.Math_round (g / total * 100) else 0.

(** ** Scores *)

(** The recycle rate of one waste entry. *)
Definition waste_rate (w : WasteOutput.t) : Q :=
  WasteOutput.recycled w / Qmax (WasteOutput.amount w) 1.

(** The water recycle rate as the specification words it:
    [recycled / consumption], and 0 when the consumption is 0. *)
Definition waterRecycleRate_spec (input : LCAInput.t) : Q :=
  if Qeq_bool (WaterUsage.consumption (water input)) 0 then 0
  else WaterUsage.recycled (water input)
       / WaterUsage.consumption (water input).

(** The waste score as the specification words it: the mean waste rate
    times 100 when there are waste entries, the water recycle rate times
    100 otherwise, clamped to 100. *)
Definition wasteScore_spec (input : LCAInput.t) : Q :=
  match waste input with
  | Some (x :: w) =>
      Qmin 100
        (Qsum (map waste_rate (x :: w))
         / inject_Z (Z.of_nat (length (x :: w))) * 100)
  | _ => Qmin 100 (waterRecycleRate_spec input * 100)
  end.

Definition in_0_100 (x : Q) : Prop := 0 <= x /\ x <= 100.

(** ** Sample inputs *)

(** The copper scenario of the specification. *)
Definition copper_input : LCAInput.t :=
  LCAInput.mk "Copper smelting" "Smelting"
    [ RawMaterial.mk "Copper ore" 10000 "kg" "Mine";
      RawMaterial.mk "Sulfuric acid" 500 "kg" "Supplier";
      RawMaterial.mk "Water" 5000 "L" "Municipal" ]
    [ EnergyInput.mk "electricity" 15000 "kWh";
      EnergyInput.mk "diesel" 800 "L";
      EnergyInput.mk "renewable" 3000 "kWh" ]
    [ Emission.mk "CO2" 8500 "kg";
      Emission.mk "SO2" 120 "kg";
      Emission.mk "NOx" 45 "kg" ]
    (WaterUsage.mk 5000 0 2000 "m³")
    [ Transport.mk Transport.truck 150 10000;
      Transport.mk Transport.rail 500 10000 ]
    None None.

(** The input of a bench-scale run: every field is there and nothing is
    zero, so that the normaliser leaves it as it is. *)
Definition bench_input : LCAInput.t :=
  LCAInput.mk "Bench test" "Leaching"
    [ RawMaterial.mk "Ore sample" 1 "kg" "Lab" ]
    [ EnergyInput.mk "electricity" 0.03 "kWh" ]
    [ Emission.mk "CO2" 0.001 "kg" ]
    (WaterUsage.mk 0.001 0 0 "m³")
    [ Transport.mk Transport.truck 1 1 ]
    None None.

(** Half a cubic metre of water, half of it recycled, and no waste data. *)
Definition half_recycled_input : LCAInput.t :=
  LCAInput.mk "Pilot" "Leaching"
    [ RawMaterial.mk "Ore" 100 "kg" "Mine" ]
    [ EnergyInput.mk "electricity" 10 "kWh" ]
    [ Emission.mk "CO2" 1 "kg" ]
    (WaterUsage.mk 0.5 0 0.25 "m³")
    [ Transport.mk Transport.truck 10 100 ]
    None None.

(** A record with two waste streams. *)
Definition waste_input : LCAInput.t :=
  LCAInput.mk "Smelter" "Smelting"
    [ RawMaterial.mk "Ore" 2 "tonnes" "Mine" ]
    [ EnergyInput.mk "electricity" 900 "kWh";
      EnergyInput.mk "renewable" 100 "kWh" ]
    [ Emission.mk "CO2" 50 "kg" ]
    (WaterUsage.mk 20 5 5 "m³")
    [ Transport.mk Transport.rail 300 2000 ]
    (Some [ WasteOutput.mk "Slag" 400 "kg" 100;
            WasteOutput.mk "Dust" 0.5 "kg" 0.25 ])
    None.

(** A store holding an input record with one energy entry of amount zero
    and one raw material, each array in an object of its own, and the
    value of that record. *)
Definition example_store : gmap Store.loc Store.object :=
  <[1%positive :=
      Store.OInput "" "Smelting" 2%positive 3%positive 4%positive 5%positive
        6%positive None (Some "ACME")]>
  (<[2%positive :=
       Store.OMaterials [RawMaterial.mk "Ore" 2 "tonnes" "Mine"]]>
  (<[3%positive := Store.OEnergy [EnergyInput.mk "coal" 0 "kg"]]>
  (<[4%positive := Store.OEmissions [Emission.mk "CH4" 3 "kg"]]>
  (<[5%positive := Store.OWater (WaterUsage.mk 0 0 0 "m³")]>
  (<[6%positive := Store.OTransport []]> ∅))))).

Definition example_record : LCAInput.t :=
  LCAInput.mk "" "Smelting"
    [RawMaterial.mk "Ore" 2 "tonnes" "Mine"]
    [EnergyInput.mk "coal" 0 "kg"]
    [Emission.mk "CH4" 3 "kg"]
    (WaterUsage.mk 0 0 0 "m³") [] None (Some "ACME").

(** * Properties *)

(** ** Numbers *)

Section Numbers.

Implicit Types x y : Q.

Lemma seq_true x y : JS.seq x y = true <-> x == y.
Proof. unfold JS.seq. apply Qeq_bool_iff. Qed.

Lemma seq_false x y : JS.seq x y = false <-> ~ x == y.
Proof.
  rewrite <- seq_true. destruct (JS.seq x y); split; intros; congruence.
Qed.

Lemma gt_true x y : JS.gt x y = true <-> y < x.
Proof.
  unfold JS.gt. rewrite negb_true_iff. split.
  - intros H. apply Qnot_le_lt. intros Hle.
    apply Qle_bool_iff in Hle. congruence.
  - intros H. destruct (Qle_bool x y) eqn:E; [|reflexivity].
    apply Qle_bool_iff in E. lra.
Qed.

Lemma gt_false x y : JS.gt x y = false <-> x <= y.
Proof.
  unfold JS.gt. rewrite negb_false_iff. apply Qle_bool_iff.
Qed.

Lemma truthy_true x : JS.truthy x = true <-> ~ x == 0.
Proof.
  unfold JS.truthy. rewrite negb_true_iff. apply (seq_false x 0).
Qed.

Lemma or_nonzero x d : ~ d == 0 -> ~ JS.or x d == 0.
Proof.
  intros Hd. unfold JS.or. destruct (JS.truthy x) eqn:E; [|exact Hd].
  now apply truthy_true.
Qed.

Lemma div_some x y : ~ y == 0 -> JS.div x y = Some (x / y).
Proof.
  intros H. unfold JS.div. destruct (Qeq_bool y 0) eqn:E; [|reflexivity].
  apply Qeq_bool_iff in E. contradiction.
Qed.

Lemma div_nonneg x y : 0 <= x -> 0 < y -> 0 <= x / y.
Proof.
  intros Hx Hy. apply Qle_shift_div_l; [exact Hy|]. lra.
Qed.



Lemma round_comp x y : x == y -> JS.Math_round x = JS.Math_round y.
Proof.
  intros H. unfold JS.Math_round. f_equal. apply Qfloor_comp.
  now rewrite H.
Qed.

Lemma round_mono x y : x <= y -> JS.Math_round x <= JS.Math_round y.
Proof.
  intros H. unfold JS.Math_round. rewrite <- Zle_Qle.
  apply Qfloor_resp_le. lra.
Qed.

Lemma round_Z (z : Z) : JS.Math_round (inject_Z z) == inject_Z z.
Proof.
  unfold JS.Math_round.
  assert (Qfloor (inject_Z z + (1 # 2)) = z) as ->; [|reflexivity].
  cbn. Z.to_euclidean_division_equations. lia.
Qed.

Lemma round_bounds x : 0 <= x -> x <= 100 ->
  0 <= JS.Math_round x /\ JS.Math_round x <= 100.
Proof.
  intros H0 H100. split.
  - rewrite <- (round_Z 0). apply round_mono. exact H0.
  - rewrite <- (round_Z 100). apply round_mono. exact H100.
Qed.

Lemma min_100_bounds x : 0 <= x ->
  0 <= JS.Math_min 100 x /\ JS.Math_min 100 x <= 100.
Proof.
  intros H. unfold JS.Math_min. split.
  - apply Q.min_glb; lra.
  - apply Q.le_min_l.
Qed.

Lemma clamp_bounds x :
  0 <= JS.Math_max 0 (JS.Math_min 100 x)
  /\ JS.Math_max 0 (JS.Math_min 100 x) <= 100.
Proof.
  unfold JS.Math_max, JS.Math_min. split.
  - apply Q.le_max_l.
  - apply Q.max_lub; [lra | apply Q.le_min_l].
Qed.

Lemma max_1_pos x : 0 < JS.Math_max x 1.
Proof.
  unfold JS.Math_max.
  pose proof (Q.le_max_r x 1). lra.
Qed.

End Numbers.

Lemma fold_left_Qsum {A} (f : A -> Q) (l : list A) (a : Q) :
  fold_left (fun s x => s + f x) l a == a + Qsum (map f l).
Proof.
  revert a. induction l as [|x l IH]; intros a; simpl.
  - lra.
  - rewrite IH. lra.
Qed.

(** ** The normaliser *)

Arguments JS.toFixed : simpl never.
Arguments JS.toString_int : simpl never.
Arguments JS.trim : simpl never.

Lemma fold_material_kg (ms : list RawMaterial.t) :
  fold_left add_material_kg ms 0 == Qsum (map material_kg ms).
Proof.
  unfold add_material_kg.
  rewrite (fold_left_Qsum material_kg). lra.
Qed.

Lemma totalMaterialKg_agrees (input : LCAInput.t) :
  JS.or (fold_left add_material_kg (rawMaterials input) 0) 1000
  == totalMaterialKg_spec input.
Proof.
  unfold JS.or, JS.truthy, totalMaterialKg_spec.
  pose proof (fold_material_kg (rawMaterials input)) as H.
  destruct (Qeq_bool (fold_left _ _ _) 0) eqn:E1;
    destruct (Qeq_bool (Qsum _) 0) eqn:E2; simpl; try reflexivity; try exact H.
  - apply Qeq_bool_iff in E1. apply Qeq_bool_neq in E2. rewrite H in E1. contradiction.
  - apply Qeq_bool_iff in E2. apply Qeq_bool_neq in E1. rewrite H in E1. contradiction.
Qed.

(** The energy guard, read as the specification words it. *)
Lemma energy_missing_iff (input : LCAInput.t) :
  energy_missing input = true
  <-> energy input = []
      \/ Forall (fun e => EnergyInput.amount e == 0) (energy input).
Proof.
  unfold energy_missing. rewrite orb_true_iff, forallb_forall, Forall_forall.
  split.
  - intros [H|H]; [left|right].
    + destruct (energy input); [reflexivity | discriminate].
    + intros e He. apply seq_true, H. now apply list_elem_of_In.
  - intros [H|H]; [left|right].
    + now rewrite H.
    + intros e He. apply seq_true, H. now apply list_elem_of_In.
Qed.

Ltac case_guards input :=
  destruct (energy_missing input) eqn:?Henergy;
  destruct (water_missing input) eqn:?Hwater;
  destruct (transport_missing input) eqn:?Htransport;
  destruct (emissions_missing input) eqn:?Hemissions;
  destruct (projectName_missing input) eqn:?Hname.

(** C4: when the energy list is empty or holds only zero amounts, exactly
    one warning has the field "Energy", it has [usedBenchmark = true], and
    the energy list of the returned record is a single electricity entry of
    amount (totalMaterialKg / 1000) * 500, where totalMaterialKg is the
    raw-material mass, or 1000 when that mass is 0. *)
Theorem energy_benchmark_imputed (input : LCAInput.t) :
  energy input = []
  \/ Forall (fun e => EnergyInput.amount e == 0) (energy input) ->
  let r := validateAndApplyBenchmarks input in
  (exists w,
      warnings_for "Energy" (Validated.warnings r) = [w]
      /\ ValidationWarning.usedBenchmark w = true)
  /\ exists e,
      energy (Validated.validatedInput r) = [e]
      /\ EnergyInput.type e = "electricity"
      /\ EnergyInput.amount e == (totalMaterialKg_spec input / 1000) * 500.
Proof.
  intros H. apply energy_missing_iff in H.
  pose proof (totalMaterialKg_agrees input) as Htm.
  unfold validateAndApplyBenchmarks.
  set (tm := JS.or _ 1000) in *.
  rewrite H. split.
  - eexists.
    destruct (water_missing input), (transport_missing input),
      (emissions_missing input), (projectName_missing input);
      cbn; split; reflexivity.
  - eexists.
    destruct (water_missing input), (transport_missing input),
      (emissions_missing input), (projectName_missing input);
      cbn -[Qmult Qdiv Qeq];
      (split; [reflexivity | split; [reflexivity|]]);
      cbn [EnergyInput.amount]; unfold BENCHMARKS.electricity_per_tonne;
      rewrite Htm; reflexivity.
Qed.

(** C10: in the warnings of [validateAndApplyBenchmarks] a warning has a
    [benchmarkValue] exactly when [usedBenchmark] is true, and
    [usedBenchmark] is true exactly for the fields "Energy", "Water" and
    "Transport"; the "Emissions" and "Project Name" warnings have it
    false. *)
Theorem warning_benchmark_flags (input : LCAInput.t) (w : ValidationWarning.t) :
  In w (Validated.warnings (validateAndApplyBenchmarks input)) ->
  (is_Some (ValidationWarning.benchmarkValue w)
   <-> ValidationWarning.usedBenchmark w = true)
  /\ (ValidationWarning.usedBenchmark w = true
      <-> ValidationWarning.field w = "Energy"
          \/ ValidationWarning.field w = "Water"
          \/ ValidationWarning.field w = "Transport")
  /\ (ValidationWarning.usedBenchmark w = false
      <-> ValidationWarning.field w = "Emissions"
          \/ ValidationWarning.field w = "Project Name").
Proof.
  unfold validateAndApplyBenchmarks.
  set (tm := JS.or _ 1000).
  case_guards input; cbn;
    intros Hin;
    repeat (destruct Hin as [<- | Hin]; [cbn; clear|]);
    try contradiction;
    (split; [split; [intros [? ?]; congruence | intros; try discriminate; eauto]|]);
    (split; (split; [intros; try discriminate; eauto | intros [?|[?|?]] || intros [?|?]; try discriminate; reflexivity])).
Qed.

Lemma energy_benchmark_imputed_witness :
  energy empty_input = []
  /\ (exists w,
         warnings_for "Energy"
           (Validated.warnings (validateAndApplyBenchmarks empty_input)) = [w]
         /\ ValidationWarning.usedBenchmark w = true)
  /\ exists e,
      energy (Validated.validatedInput (validateAndApplyBenchmarks empty_input))
      = [e]
      /\ EnergyInput.type e = "electricity"
      /\ EnergyInput.amount e
         == (totalMaterialKg_spec empty_input / 1000) * 500.
Proof.
  split; [reflexivity|].
  apply (energy_benchmark_imputed empty_input). left. reflexivity.
Defined.

Lemma warning_benchmark_flags_witness :
  let w :=
    ValidationWarning.mk "Emissions"
      "No direct emissions specified. Only indirect emissions from energy will be calculated."
      false None in
  In w (Validated.warnings (validateAndApplyBenchmarks empty_input))
  /\ (is_Some (ValidationWarning.benchmarkValue w)
      <-> ValidationWarning.usedBenchmark w = true)
  /\ (ValidationWarning.usedBenchmark w = true
      <-> ValidationWarning.field w = "Energy"
          \/ ValidationWarning.field w = "Water"
          \/ ValidationWarning.field w = "Transport")
  /\ (ValidationWarning.usedBenchmark w = false
      <-> ValidationWarning.field w = "Emissions"
          \/ ValidationWarning.field w = "Project Name").
Proof.
  intros w.
  assert (In w (Validated.warnings (validateAndApplyBenchmarks empty_input)))
    as Hin by (vm_compute; tauto).
  split; [exact Hin|].
  exact (warning_benchmark_flags empty_input w Hin).
Defined.

(** *** Inputs that need no imputation *)

Lemma every_zero_false {A} (f : A -> Q) (l : list A) :
  (exists a, In a l /\ ~ f a == 0) ->
  (length l =? 0)%nat || forallb (fun a => JS.seq (f a) 0) l = false.
Proof.
  intros (a & Ha & Hz). apply orb_false_iff. split.
  - destruct l; [contradiction | reflexivity].
  - destruct (forallb _ l) eqn:E; [|reflexivity].
    rewrite forallb_forall in E.
    specialize (E a Ha).
    apply seq_true in E. contradiction.
Qed.

Lemma projectName_present (input : LCAInput.t) :
  JS.trim (projectName input) <> "" -> projectName_missing input = false.
Proof.
  intros H. unfold projectName_missing, JS.truthy_string.
  apply orb_false_iff. split.
  - rewrite negb_involutive. apply String.eqb_neq. intros E.
    rewrite E in H. now apply H.
  - now apply String.eqb_neq.
Qed.

Lemma no_zero_fields_guards (input : LCAInput.t) :
  no_zero_fields input ->
  energy_missing input = false /\ water_missing input = false
  /\ transport_missing input = false /\ emissions_missing input = false
  /\ projectName_missing input = false.
Proof.
  intros (He & Hw & Ht & Hm & Hn). repeat split.
  - now apply (every_zero_false EnergyInput.amount).
  - now apply seq_false.
  - now apply (every_zero_false Transport.distance).
  - now apply (every_zero_false Emission.amount).
  - now apply projectName_present.
Qed.

Lemma guards_false_unchanged (input : LCAInput.t) :
  energy_missing input = false -> water_missing input = false ->
  transport_missing input = false -> emissions_missing input = false ->
  projectName_missing input = false ->
  validateAndApplyBenchmarks input = Validated.mk input [].
Proof.
  intros He Hw Ht Hm Hn. unfold validateAndApplyBenchmarks.
  now rewrite He, Hw, Ht, Hm, Hn.
Qed.

(** C7: an input with no zero or empty field is returned as it is, with
    no warning. *)
Theorem normalization_idempotent (input : LCAInput.t) :
  no_zero_fields input ->
  validateAndApplyBenchmarks input = Validated.mk input [].
Proof.
  intros H. apply no_zero_fields_guards in H.
  destruct H as (He & Hw & Ht & Hm & Hn).
  now apply guards_false_unchanged.
Qed.

Lemma copper_no_zero_fields : no_zero_fields copper_input.
Proof.
  unfold no_zero_fields. repeat split.
  - exists (EnergyInput.mk "electricity" 15000 "kWh"). split.
    + cbn. tauto.
    + cbn. discriminate.
  - cbn. discriminate.
  - exists (Transport.mk Transport.truck 150 10000). split.
    + cbn. tauto.
    + cbn. discriminate.
  - exists (Emission.mk "CO2" 8500 "kg"). split.
    + cbn. tauto.
    + cbn. discriminate.
  - vm_compute. discriminate.
Qed.

Lemma normalization_idempotent_witness :
  no_zero_fields copper_input
  /\ validateAndApplyBenchmarks copper_input = Validated.mk copper_input [].
Proof.
  split; [exact copper_no_zero_fields|].
  apply (normalization_idempotent copper_input). exact copper_no_zero_fields.
Defined.

(** What the normaliser returns needs no further imputation: once the
    emissions are there, a second pass changes nothing and warns about
    nothing. *)
Lemma benchmark_nonzero (tm k : Q) : ~ tm == 0 -> ~ k == 0 -> ~ tm / 1000 * k == 0.
Proof.
  intros Htm Hk H. apply Htm.
  assert (tm == (tm / 1000 * k) * (1000 / k)) as -> by (field; exact Hk).
  rewrite H. lra.
Qed.

Lemma validated_guards (input : LCAInput.t) :
  emissions_missing input = false ->
  let v := Validated.validatedInput (validateAndApplyBenchmarks input) in
  energy_missing v = false /\ water_missing v = false
  /\ transport_missing v = false /\ emissions_missing v = false
  /\ projectName_missing v = false.
Proof.
  intros Hm. unfold validateAndApplyBenchmarks.
  assert (~ JS.or (fold_left add_material_kg (rawMaterials input) 0) 1000 == 0)
    as Htm by (apply or_nonzero; discriminate).
  set (tm := JS.or _ 1000) in *.
  assert (JS.seq (tm / 1000 * BENCHMARKS.electricity_per_tonne) 0 = false) as HE
    by (apply seq_false, benchmark_nonzero; [exact Htm | discriminate]).
  assert (JS.seq (tm / 1000 * BENCHMARKS.water_per_tonne) 0 = false) as HW
    by (apply seq_false, benchmark_nonzero; [exact Htm | discriminate]).
  rewrite Hm.
  destruct (energy_missing input) eqn:He, (water_missing input) eqn:Hw,
    (transport_missing input) eqn:Ht, (projectName_missing input) eqn:Hn;
    cbn -[Qmult Qdiv JS.seq];
    unfold energy_missing, water_missing, transport_missing,
      emissions_missing, projectName_missing in *;
    cbn -[Qmult Qdiv JS.seq JS.truthy_string];
    rewrite ?HE, ?HW; repeat split; try assumption; reflexivity.
Qed.

Lemma validate_twice (input : LCAInput.t) :
  emissions_missing input = false ->
  let v := Validated.validatedInput (validateAndApplyBenchmarks input) in
  validateAndApplyBenchmarks v = Validated.mk v [].
Proof.
  intros Hm v.
  destruct (validated_guards input Hm) as (He & Hw & Ht & Hm' & Hn).
  now apply guards_false_unchanged.
Qed.

(** ** Global warming potential *)

(** [includes] is substring occurrence. *)
Lemma prefix_app (k s : string) :
  String.prefix k s = true <-> exists post, s = k +:+ post.
Proof.
  revert s. induction k as [|a k IH]; intros s; simpl.
  - split; [intros _; exists s; reflexivity | destruct s; reflexivity].
  - destruct s as [|b s]; simpl.
    + split; [discriminate | intros [post H]; discriminate].
    + destruct (Ascii.ascii_dec a b) as [->|Hne].
      * rewrite IH. split; intros [post H]; exists post.
        -- now rewrite H.
        -- now inversion H.
      * split; [discriminate | intros [post H]; inversion H; congruence].
Qed.

Lemma includes_substring (s k : string) :
  JS.includes s k = true <-> exists pre post, s = pre +:+ k +:+ post.
Proof.
  induction s as [|a s IH]; cbn [JS.includes].
  - rewrite orb_false_r, prefix_app. split.
    + intros [post H]. exists "", post. exact H.
    + intros (pre & post & H). destruct pre; [|discriminate].
      exists post. exact H.
  - rewrite orb_true_iff, prefix_app, IH. split.
    + intros [[post H] | (pre & post & H)].
      * exists "", post. exact H.
      * exists (String a pre), post. simpl. now rewrite H.
    + intros (pre & post & H). destruct pre as [|b pre].
      * left. exists post. exact H.
      * right. inversion H. now exists pre, post.
Qed.






(** The copper scenario: 8720 kg from energy, 8665 from direct emissions
    (SO2 and NOx at multiplier 1), 205.15 from transport and 1720 from
    water; a net water footprint of 3000 cubic metres. *)
Example copper_gwp : calculateGWP copper_input == 19310.15.
Proof. reflexivity. Qed.

Example copper_water_footprint : calculateWaterFootprint copper_input == 3000.
Proof. reflexivity. Qed.

Example copper_hotspots :
  option_map (map (fun h => (Hotspot.area h, Hotspot.contribution h)))
    (identifyHotspots copper_input)
  = Some [ ("Energy Consumption", 45); ("Direct Process Emissions", 45);
           ("Water Usage", 9); ("Transportation", 1) ].
Proof. vm_compute. reflexivity. Qed.

(** An energy type outside the table takes the electricity factor; the
    first species key in table order wins. *)
Example steam_uses_electricity_factor :
  energy_term (EnergyInput.mk "steam" 10 "kg") == 4.36.
Proof. reflexivity. Qed.

Example methane_multiplier :
  emission_term (Emission.mk "Methane (CH4)" 2 "kg") == 59.6.
Proof. reflexivity. Qed.

Example first_key_wins :
  emission_term (Emission.mk "N2O + CO2 blend" 2 "kg") == 2.
Proof. reflexivity. Qed.

(** ** Inputs with non-negative numbers *)

Lemma nonneg_le (x : Q) : nonneg x = true <-> 0 <= x.
Proof. apply Qle_bool_iff. Qed.

Lemma Qsum_map_nonneg {A} (f : A -> Q) (p : A -> bool) (l : list A) :
  (forall a, p a = true -> 0 <= f a) ->
  forallb p l = true -> 0 <= Qsum (map f l).
Proof.
  intros Hf. induction l as [|a l IH]; simpl; [lra|].
  intros [Ha Hl]%andb_true_iff. specialize (Hf a Ha). specialize (IH Hl). lra.
Qed.




Section NonNegative.

Variable input : LCAInput.t.
Hypothesis Hnonneg : nonneg_input input = true.





End NonNegative.

(** ** Hotspots *)

(** [Array_sort] permutes its argument. *)
Lemma sort_insert_perm {A} (cmp : A -> A -> Q) (x : A) (l : list A) :
  Permutation (sort_insert cmp x l) (x :: l).
Proof.
  induction l as [|y l IH]; simpl; [reflexivity|].
  destruct (JS.gt (cmp x y) 0); [|reflexivity].
  rewrite IH. apply perm_swap.
Qed.

Lemma Array_sort_perm {A} (cmp : A -> A -> Q) (l : list A) :
  Permutation (Array_sort cmp l) l.
Proof.
  unfold Array_sort. induction l as [|x l IH]; simpl; [reflexivity|].
  rewrite sort_insert_perm. now constructor.
Qed.

Lemma Qsum_perm (l l' : list Q) : Permutation l l' -> Qsum l == Qsum l'.
Proof.
  induction 1; simpl; try lra.
Qed.

Lemma contribution_sum_sort (cmp : Hotspot.t -> Hotspot.t -> Q) hs :
  contribution_sum (Array_sort cmp hs) == contribution_sum hs.
Proof.
  unfold contribution_sum. apply Qsum_perm, Permutation_map, Array_sort_perm.
Qed.

Lemma gt_comp (x y z : Q) : x == y -> JS.gt x z = JS.gt y z.
Proof.
  intros H. destruct (JS.gt y z) eqn:E.
  - apply gt_true. apply gt_true in E. lra.
  - apply gt_false. apply gt_false in E. lra.
Qed.

Lemma category_contribution_comp (g g' total : Q) :
  g == g' -> category_contribution g total = category_contribution g' total.
Proof.
  intros H. unfold category_contribution. rewrite (gt_comp g g' 0 H).
  destruct (JS.gt g' 0); [|reflexivity].
  apply round_comp. now rewrite H.
Qed.

Lemma identifyHotspots_zero (input : LCAInput.t) :
  calculateGWP input == 0 -> identifyHotspots input = Some [].
Proof.
  intros H. unfold identifyHotspots.
  now rewrite (proj2 (seq_true _ _) H).
Qed.

(** With a total other than 0 the analysis has a result, and its
    contributions add up to those of the four categories: sorting only
    permutes them. *)
Lemma identifyHotspots_contributions (input : LCAInput.t) :
  ~ calculateGWP input == 0 ->
  exists hs,
    identifyHotspots input = Some hs
    /\ contribution_sum hs
       == category_contribution (energyGWP_of input) (calculateGWP input)
          + category_contribution (transportGWP_of input) (calculateGWP input)
          + category_contribution (directGWP_of input) (calculateGWP input)
          + category_contribution (waterGWP_of input) (calculateGWP input).
Proof.
  intros HT. unfold identifyHotspots.
  rewrite (proj2 (seq_false _ _) HT).
  assert (fold_left (fun g e => g + energy_term e) (energy input) 0
          == energyGWP_of input) as He
    by (rewrite (fold_left_Qsum energy_term); unfold energyGWP_of; lra).
  assert (fold_left (fun g t => g + transport_term t) (transport input) 0
          == transportGWP_of input) as Ht
    by (rewrite (fold_left_Qsum transport_term); unfold transportGWP_of; lra).
  assert (fold_left (fun g e => g + emission_term e) (emissions input) 0
          == directGWP_of input) as Hd
    by (rewrite (fold_left_Qsum emission_term); unfold directGWP_of; lra).
  rewrite <- (category_contribution_comp _ _ _ He),
    <- (category_contribution_comp _ _ _ Ht),
    <- (category_contribution_comp _ _ _ Hd).
  unfold waterGWP_of.
  set (T := calculateGWP input) in *.
  set (eg := fold_left _ (energy input) 0).
  set (tg := fold_left _ (transport input) 0).
  set (dg := fold_left _ (emissions input) 0).
  set (wg := WaterUsage.consumption (water input) * WATER_FACTOR).
  unfold category_contribution.
  rewrite !(div_some _ T HT).
  assert (JS.gt wg 0 = true ->
          JS.div (WaterUsage.recycled (water input))
            (WaterUsage.consumption (water input))
          = Some (WaterUsage.recycled (water input)
                  / WaterUsage.consumption (water input))) as Hc.
  { intros Hw%gt_true. apply div_some. intros Hz.
    unfold wg in Hw. rewrite Hz in Hw. lra. }
  destruct (JS.gt wg 0); [rewrite (Hc eq_refl)|]; clear Hc;
    destruct (JS.gt eg 0), (JS.gt tg 0), (JS.gt dg 0);
    cbn [mbind option_bind]; eexists; (split; [reflexivity|]);
    rewrite contribution_sum_sort; unfold contribution_sum;
    cbn [map app Qsum fold_right Hotspot.contribution]; lra.
Qed.



Example bench_input_normalized :
  nonneg_input bench_input = true
  /\ validateAndApplyBenchmarks bench_input = Validated.mk bench_input [].
Proof. split; reflexivity. Qed.




(** ** Waste score *)

Lemma sum_waste_rates_from (w : list WasteOutput.t) (a : Q) :
  exists s,
    fold_left
      (fun sum w =>
         sum ← sum;
         r ← JS.div (WasteOutput.recycled w)
               (JS.Math_max (WasteOutput.amount w) 1);
         Some (sum + r))
      w (Some a) = Some s
    /\ s == a + Qsum (map waste_rate w).
Proof.
  revert a. induction w as [|x w IH]; intros a; cbn [fold_left map].
  - exists a. split; [reflexivity | unfold Qsum; simpl; lra].
  - cbn [mbind option_bind]. rewrite div_some.
    + cbn [mbind option_bind].
      destruct (IH (a + WasteOutput.recycled x
                        / JS.Math_max (WasteOutput.amount x) 1))
        as (s & Hs & Heq).
      exists s. split; [exact Hs|]. rewrite Heq.
      change (Qsum (waste_rate x :: map waste_rate w))
        with (waste_rate x + Qsum (map waste_rate w)).
      unfold waste_rate at 2. unfold JS.Math_max. ring.
    + pose proof (max_1_pos (WasteOutput.amount x)). lra.
Qed.

Lemma sum_waste_rates_some (w : list WasteOutput.t) :
  exists s, sum_waste_rates w = Some s /\ s == Qsum (map waste_rate w).
Proof.
  destruct (sum_waste_rates_from w 0) as (s & Hs & Heq).
  exists s. split; [exact Hs | rewrite Heq; lra].
Qed.

Lemma waste_rate_nonneg (w : WasteOutput.t) :
  0 <= WasteOutput.recycled w -> 0 <= waste_rate w.
Proof.
  intros H. apply div_nonneg; [exact H|]. apply max_1_pos.
Qed.

Lemma length_nonzero {A} (l : list A) :
  (length l =? 0)%nat = false -> 0 < inject_Z (Z.of_nat (length l)).
Proof.
  intros H%Nat.eqb_neq.
  change 0 with (inject_Z 0). rewrite <- Zlt_Qlt. lia.
Qed.

(** The mean waste rate of [calculateMCI] and [calculateSustainabilityScore]:
    [waste.reduce(...) / waste.length]. *)
Lemma waste_mean_some (w : list WasteOutput.t) :
  (length w =? 0)%nat = false ->
  exists r,
    (s ← sum_waste_rates w; JS.div s (inject_Z (Z.of_nat (length w))))
    = Some r
    /\ r == Qsum (map waste_rate w) / inject_Z (Z.of_nat (length w)).
Proof.
  intros Hlen. destruct (sum_waste_rates_some w) as (s & -> & Hs).
  cbn [mbind option_bind].
  pose proof (length_nonzero w Hlen).
  rewrite div_some by lra.
  eexists. split; [reflexivity|]. now rewrite Hs.
Qed.

(** C3, as stated, fails on the branch without waste data: the code
    divides by [Math.max(consumption, 1)], so the score is 25 where the
    water recycle rate times 100 is 50. *)
Lemma wasteScore_counterexample :
  waste half_recycled_input = None
  /\ wasteScore_spec half_recycled_input == 50
  /\ exists s,
      wasteScore_of half_recycled_input = Some s /\ s == 25
      /\ ~ s == wasteScore_spec half_recycled_input.
Proof.
  split; [reflexivity|]. split; [reflexivity|].
  eexists. split; [vm_compute; reflexivity|].
  split; [reflexivity | discriminate].
Qed.

(** The local [wasteScore] always has a value: the clamped rate of the
    branch taken. *)
Lemma wasteScore_of_some (input : LCAInput.t) :
  exists rate,
    wasteScore_of input = Some (JS.Math_min 100 rate)
    /\ match waste_present input with
       | Some w =>
           rate == Qsum (map waste_rate w)
                   / inject_Z (Z.of_nat (length w)) * 100
       | None =>
           rate = WaterUsage.recycled (water input)
                  / JS.Math_max (WaterUsage.consumption (water input)) 1
                  * 100
       end.
Proof.
  unfold wasteScore_of.
  destruct (waste_present input) as [w|] eqn:Hw.
  - assert ((length w =? 0)%nat = false) as Hlen.
    { unfold waste_present in Hw. destruct (waste input) as [w'|]; [|discriminate].
      destruct (length w' =? 0)%nat eqn:E; [discriminate|]. now inversion Hw; subst. }
    destruct (sum_waste_rates_some w) as (s & Hs & Hsum).
    pose proof (length_nonzero w Hlen) as Hpos.
    rewrite Hs. cbn [mbind option_bind].
    rewrite div_some by lra. cbn [mbind option_bind].
    eexists. split; [reflexivity|]. now rewrite Hsum.
  - pose proof (max_1_pos (WaterUsage.consumption (water input))) as Hmax.
    rewrite div_some by lra. cbn [mbind option_bind].
    eexists. split; reflexivity.
Qed.

(** C3, amended: with waste entries the local [wasteScore] is the mean of
    [recycled / max(amount, 1)] times 100, clamped to 100; without waste
    entries it is [recycled / max(consumption, 1)] times 100, clamped to
    100, which is the water recycle rate times 100 as soon as the
    consumption is at least 1. *)
Theorem wasteScore_value (input : LCAInput.t) :
  exists s,
    wasteScore_of input = Some s
    /\ (forall x w, waste input = Some (x :: w) ->
        s == Qmin 100
               (Qsum (map waste_rate (x :: w))
                / inject_Z (Z.of_nat (length (x :: w))) * 100))
    /\ (waste input = None \/ waste input = Some [] ->
        s == Qmin 100 (WaterUsage.recycled (water input)
                       / Qmax (WaterUsage.consumption (water input)) 1 * 100))
    /\ (waste input = None \/ waste input = Some [] ->
        1 <= WaterUsage.consumption (water input) ->
        s == Qmin 100 (waterRecycleRate_spec input * 100)).
Proof.
  destruct (wasteScore_of_some input) as (rate & Hs & Hrate).
  exists (JS.Math_min 100 rate). split; [exact Hs|].
  unfold waste_present in Hrate. unfold JS.Math_min, JS.Math_max in *.
  destruct (waste input) as [[|x w]|] eqn:Hw; cbn [length Nat.eqb] in Hrate.
  - split; [intros ? ? ?; discriminate|]. subst rate.
    split; [reflexivity|]. intros _ Hc.
    apply Q.min_compat; [reflexivity|].
    unfold waterRecycleRate_spec.
    rewrite (proj2 (seq_false _ 0)) by lra.
    rewrite Q.max_l by lra. reflexivity.
  - split; [|split; intros [?|?]; discriminate].
    intros x' w' [= <- <-].
    apply Q.min_compat; [reflexivity | exact Hrate].
  - split; [intros ? ? ?; discriminate|]. subst rate.
    split; [reflexivity|]. intros _ Hc.
    apply Q.min_compat; [reflexivity|].
    unfold waterRecycleRate_spec.
    rewrite (proj2 (seq_false _ 0)) by lra.
    rewrite Q.max_l by lra. reflexivity.
Qed.

(** The [wasteScore] field of the result is that local, rounded. *)
Lemma score_wasteScore_field (input : LCAInput.t) (gwp ei wf : Q)
    (sc : SustainabilityScore.t) :
  calculateSustainabilityScore input gwp ei wf = Some sc ->
  exists s,
    wasteScore_of input = Some s
    /\ SustainabilityScore.wasteScore sc = JS.Math_round s.
Proof.
  unfold calculateSustainabilityScore. intros H.
  destruct (JS.div gwp _); [|discriminate].
  destruct (JS.div wf _); [|discriminate].
  cbn [mbind option_bind] in H.
  destruct (wasteScore_of input) as [s|]; [|discriminate].
  destruct (calculateMCI input); [|discriminate].
  cbn [mbind option_bind] in H. inversion H. exists s. split; reflexivity.
Qed.

Lemma wasteScore_value_witness :
  exists s, wasteScore_of waste_input = Some s /\ s == 25.
Proof.
  destruct (wasteScore_value waste_input) as (s & Hs & Hwaste & _).
  exists s. split; [exact Hs|].
  rewrite (Hwaste _ _ eq_refl). reflexivity.
Defined.

(** ** Score bounds *)

Lemma nonneg_input_fields (input : LCAInput.t) :
  nonneg_input input = true ->
  0 <= WaterUsage.consumption (water input)
  /\ 0 <= WaterUsage.recycled (water input)
  /\ forallb (fun e => nonneg (EnergyInput.amount e)) (energy input) = true
  /\ forallb (fun m => nonneg (RawMaterial.quantity m)) (rawMaterials input)
     = true
  /\ forallb (fun w => nonneg (WasteOutput.amount w)
                       && nonneg (WasteOutput.recycled w))
       (default [] (waste input)) = true.
Proof.
  unfold nonneg_input. rewrite !andb_true_iff, !nonneg_le. tauto.
Qed.

Lemma forallb_filter {A} (p q : A -> bool) (l : list A) :
  forallb p l = true -> forallb p (List.filter q l) = true.
Proof.
  induction l as [|a l IH]; simpl; [reflexivity|].
  intros [Ha Hl]%andb_true_iff.
  destruct (q a); simpl; [rewrite Ha|]; auto.
Qed.

Lemma waste_rates_nonneg (w : list WasteOutput.t) :
  forallb (fun w => nonneg (WasteOutput.amount w)
                    && nonneg (WasteOutput.recycled w)) w = true ->
  0 <= Qsum (map waste_rate w).
Proof.
  apply Qsum_map_nonneg.
  intros a [_ Hr%nonneg_le]%andb_true_iff. now apply waste_rate_nonneg.
Qed.

Lemma round_tenth_bounds (x : Q) :
  0 <= x -> x <= 100 ->
  0 <= JS.Math_round (x * 10) / 10 /\ JS.Math_round (x * 10) / 10 <= 100.
Proof.
  intros H0 H100.
  assert (0 <= JS.Math_round (x * 10)) as Hlo.
  { rewrite <- (round_Z 0). apply round_mono. change (0 <= x * 10). lra. }
  assert (JS.Math_round (x * 10) <= 1000) as Hhi.
  { rewrite <- (round_Z 1000). apply round_mono. change (x * 10 <= 1000). lra. }
  set (r := JS.Math_round _) in *.
  assert (r / 10 == r * (1 # 10)) as -> by (field; lra). lra.
Qed.

(** [calculateMCI] always has a value, and with non-negative numbers it
    lies between 0 and 100. *)
Lemma calculateMCI_bounds (input : LCAInput.t) :
  exists m,
    calculateMCI input = Some m
    /\ (nonneg_input input = true -> 0 <= m /\ m <= 100).
Proof.
  unfold calculateMCI.
  destruct (JS.seq (fold_left add_material_kg (rawMaterials input) 0) 0).
  { exists 0. split; [reflexivity | intros _; lra]. }
  (* water recycle rate *)
  assert (exists wr,
             (if JS.gt (WaterUsage.consumption (water input)) 0
              then JS.div (WaterUsage.recycled (water input))
                     (WaterUsage.consumption (water input))
              else Some 0) = Some wr
             /\ (nonneg_input input = true -> 0 <= wr)) as (wr & -> & Hwr).
  { destruct (JS.gt _ 0) eqn:E.
    - apply gt_true in E. rewrite div_some by lra.
      eexists. split; [reflexivity|].
      intros (_ & Hr & _)%nonneg_input_fields. now apply div_nonneg.
    - exists 0. split; [reflexivity | intros _; lra]. }
  cbn [mbind option_bind].
  (* renewable share *)
  set (te := fold_left _ (energy input) 0).
  set (re := fold_left _ (List.filter is_renewable (energy input)) 0).
  assert (exists rs,
             (if JS.gt te 0 then JS.div re te else Some 0) = Some rs
             /\ (nonneg_input input = true -> 0 <= rs)) as (rs & -> & Hrs).
  { destruct (JS.gt te 0) eqn:E.
    - apply gt_true in E. rewrite div_some by lra.
      eexists. split; [reflexivity|].
      intros (_ & _ & He & _)%nonneg_input_fields.
      apply div_nonneg; [|exact E]. unfold re.
      rewrite (fold_left_Qsum EnergyInput.amount).
      pose proof (Qsum_map_nonneg EnergyInput.amount _ _
                    (fun a => proj1 (nonneg_le _))
                    (forallb_filter _ is_renewable _ He)). lra.
    - exists 0. split; [reflexivity | intros _; lra]. }
  cbn [mbind option_bind].
  (* waste recycle rate *)
  assert (exists wrr,
             match waste_present input with
             | Some w =>
                 s ← sum_waste_rates w;
                 JS.div s (inject_Z (Z.of_nat (length w)))
             | None => Some BENCHMARKS.waste_recycle_rate
             end = Some wrr
             /\ (nonneg_input input = true -> 0 <= wrr)) as (wrr & -> & Hwrr).
  { unfold waste_present.
    destruct (waste input) as [w|] eqn:Hw;
      [destruct (length w =? 0)%nat eqn:Hlen|].
    - eexists. split; [reflexivity | intros _; discriminate].
    - destruct (waste_mean_some w Hlen) as (r & -> & Hr).
      exists r. split; [reflexivity|].
      intros (_ & _ & _ & _ & Hws)%nonneg_input_fields.
      rewrite Hw in Hws. cbn [default] in Hws.
      rewrite Hr. apply div_nonneg; [now apply waste_rates_nonneg|].
      now apply length_nonzero.
    - eexists. split; [reflexivity | intros _; discriminate]. }
  cbn [mbind option_bind].
  eexists. split; [reflexivity|].
  intros Hnn. specialize (Hwr Hnn). specialize (Hrs Hnn). specialize (Hwrr Hnn).
  apply round_tenth_bounds.
  - apply min_100_bounds. nra.
  - apply Q.le_min_l.
Qed.

(** The local [wasteScore] never exceeds 100, and is not negative when the
    numbers of the input are not. *)
Lemma wasteScore_bounds (input : LCAInput.t) :
  exists s,
    wasteScore_of input = Some s
    /\ s <= 100
    /\ (nonneg_input input = true -> 0 <= s).
Proof.
  destruct (wasteScore_of_some input) as (rate & Hs & Hrate).
  exists (JS.Math_min 100 rate). split; [exact Hs|].
  split; [apply Q.le_min_l|].
  intros (_ & Hr & _ & _ & Hws)%nonneg_input_fields.
  apply min_100_bounds.
  unfold waste_present in Hrate.
  destruct (waste input) as [w|];
    [destruct (length w =? 0)%nat eqn:Hlen|]; cbn [default] in Hws.
  - subst rate. apply Qmult_le_0_compat; [|lra].
    apply div_nonneg; [exact Hr | apply max_1_pos].
  - rewrite Hrate. apply Qmult_le_0_compat; [|lra].
    apply div_nonneg; [now apply waste_rates_nonneg | now apply length_nonzero].
  - subst rate. apply Qmult_le_0_compat; [|lra].
    apply div_nonneg; [exact Hr | apply max_1_pos].
Qed.

(** [calculateSustainabilityScore] always has a value; with non-negative
    input numbers every score of the record is between 0 and 100,
    whatever [gwp], [energyIntensity] and [waterFootprint] are. *)
Lemma score_some_bounds (input : LCAInput.t) (gwp ei wf : Q) :
  exists sc,
    calculateSustainabilityScore input gwp ei wf = Some sc
    /\ (nonneg_input input = true ->
        in_0_100 (SustainabilityScore.overall sc)
        /\ in_0_100 (SustainabilityScore.gwpScore sc)
        /\ in_0_100 (SustainabilityScore.energyScore sc)
        /\ in_0_100 (SustainabilityScore.waterScore sc)
        /\ in_0_100 (SustainabilityScore.wasteScore sc)
        /\ in_0_100 (SustainabilityScore.mciScore sc)).
Proof.
  unfold calculateSustainabilityScore.
  assert (~ JS.or (fold_left add_material_kg (rawMaterials input) 0) 1000 == 0)
    as Htm by (apply or_nonzero; discriminate).
  set (tm := JS.or _ 1000) in *.
  rewrite !(div_some _ tm Htm). cbn [mbind option_bind].
  destruct (wasteScore_bounds input) as (s & -> & Hs100 & Hs0).
  destruct (calculateMCI_bounds input) as (m & -> & Hm).
  cbn [mbind option_bind].
  eexists. split; [reflexivity|].
  intros Hnn. specialize (Hs0 Hnn). destruct (Hm Hnn) as [Hm0 Hm100].
  cbn [SustainabilityScore.overall SustainabilityScore.gwpScore
       SustainabilityScore.energyScore SustainabilityScore.waterScore
       SustainabilityScore.wasteScore SustainabilityScore.mciScore].
  pose proof (clamp_bounds (100 - gwp / tm * 1000 / 20)) as [Hg0 Hg100].
  pose proof (clamp_bounds (100 - ei / 1)) as [He0 He100].
  pose proof (clamp_bounds (100 - wf / tm * 1000 / 0.1)) as [Hw0 Hw100].
  set (g := JS.Math_max 0 _) in *.
  set (e := JS.Math_max 0 _) in *.
  set (w := JS.Math_max 0 _) in *.
  unfold in_0_100. repeat split; apply round_bounds; lra.
Qed.



(** ** The assembled result *)

Lemma calculateEnergyIntensity_some (input : LCAInput.t) :
  exists v, calculateEnergyIntensity input = Some v.
Proof.
  unfold calculateEnergyIntensity.
  set (te := fold_left _ (energy input) 0).
  set (tm := fold_left _ (rawMaterials input) 0).
  destruct (JS.gt tm 0) eqn:E.
  - apply gt_true in E. rewrite div_some by lra.
    cbn [mbind option_bind]. eexists. reflexivity.
  - eexists. reflexivity.
Qed.

Lemma identifyHotspots_some (input : LCAInput.t) :
  exists hs, identifyHotspots input = Some hs.
Proof.
  destruct (JS.seq (calculateGWP input) 0) eqn:E.
  - apply seq_true in E. exists []. now apply identifyHotspots_zero.
  - apply seq_false in E.
    destruct (identifyHotspots_contributions input E) as (hs & Hhs & _).
    now exists hs.
Qed.

Lemma calculateSDGAlignment_some (input : LCAInput.t) (gwp : Q) :
  exists l,
    calculateSDGAlignment input gwp = Some l
    /\ map SDGAlignment.sdg l = [9; 12; 13]%Z.
Proof.
  unfold calculateSDGAlignment.
  set (te := fold_left _ (energy input) 0).
  set (re := fold_left _ (List.filter is_renewable (energy input)) 0).
  assert (exists rs,
             (if JS.gt te 0 then r ← JS.div re te; Some (r * 100)
              else Some 0) = Some rs) as (rs & ->).
  { destruct (JS.gt te 0) eqn:E.
    - apply gt_true in E. rewrite div_some by lra. eexists. reflexivity.
    - eexists. reflexivity. }
  cbn [mbind option_bind].
  assert (exists rr,
             (if JS.gt (WaterUsage.consumption (water input)) 0
              then r ← JS.div (WaterUsage.recycled (water input))
                         (WaterUsage.consumption (water input));
                   Some (r * 100)
              else Some 0) = Some rr) as (rr & ->).
  { destruct (JS.gt _ 0) eqn:E.
    - apply gt_true in E. rewrite div_some by lra. eexists. reflexivity.
    - eexists. reflexivity. }
  cbn [mbind option_bind].
  rewrite div_some by (apply or_nonzero; discriminate).
  cbn [mbind option_bind].
  eexists. split; reflexivity.
Qed.

(** [generateLCAResult] has a result for every input; its warnings are
    those of the normaliser and its scores those of the scorer. *)
Lemma generateLCAResult_some (input : LCAInput.t)
    (ai : option (list string)) (now : string) :
  exists r,
    generateLCAResult input ai now = Some r
    /\ LCAResult.overallScore r
       = SustainabilityScore.overall (LCAResult.sustainabilityScore r)
    /\ LCAResult.validationWarnings r
       = Validated.warnings (validateAndApplyBenchmarks input)
    /\ identifyHotspots
         (Validated.validatedInput (validateAndApplyBenchmarks input))
       = Some (LCAResult.hotspots r)
    /\ length (LCAResult.impacts r) = 3%nat
    /\ map SDGAlignment.sdg (LCAResult.sdgAlignments r) = [9; 12; 13]%Z.
Proof.
  unfold generateLCAResult.
  set (v := Validated.validatedInput (validateAndApplyBenchmarks input)).
  destruct (calculateEnergyIntensity_some v) as (ei & ->).
  cbn [mbind option_bind].
  destruct (identifyHotspots_some v) as (hs & ->).
  cbn [mbind option_bind].
  destruct (calculateSDGAlignment_some v (calculateGWP v)) as (l & -> & Hl).
  cbn [mbind option_bind].
  destruct (score_some_bounds v (calculateGWP v) ei (calculateWaterFootprint v))
    as (sc & -> & _).
  cbn [mbind option_bind].
  eexists. split; [reflexivity|].
  cbn [LCAResult.overallScore LCAResult.sustainabilityScore
       LCAResult.validationWarnings LCAResult.hotspots LCAResult.impacts
       LCAResult.sdgAlignments].
  repeat split; try reflexivity. exact Hl.
Qed.

(** C9: the top-level [overallScore] of a result is the [overall] of its
    score record. *)
Theorem overallScore_agrees (input : LCAInput.t)
    (aiRecommendations : option (list string)) (now : string) :
  exists r,
    generateLCAResult input aiRecommendations now = Some r
    /\ LCAResult.overallScore r
       = SustainabilityScore.overall (LCAResult.sustainabilityScore r).
Proof.
  destruct (generateLCAResult_some input aiRecommendations now)
    as (r & Hr & Hscore & _).
  now exists r.
Qed.

(** What the normaliser returns when every list is empty and the water
    consumption is zero: the three benchmark entries, and at least the
    Energy, Water, Transport and Emissions warnings. *)
Lemma validate_empty_lists (input : LCAInput.t) :
  rawMaterials input = [] -> energy input = [] -> emissions input = [] ->
  transport input = [] -> WaterUsage.consumption (water input) == 0 ->
  let r := validateAndApplyBenchmarks input in
  let v := Validated.validatedInput r in
  rawMaterials v = []
  /\ energy v = [EnergyInput.mk "electricity" (1000 / 1000 * 500) "kWh"]
  /\ emissions v = []
  /\ WaterUsage.consumption (water v) = 1000 / 1000 * 5
  /\ WaterUsage.recycled (water v) = WaterUsage.recycled (water input)
  /\ transport v = [Transport.mk Transport.truck 200 1000]
  /\ exists rest,
      map ValidationWarning.field (Validated.warnings r)
      = "Energy" :: "Water" :: "Transport" :: "Emissions" :: rest.
Proof.
  intros Hrm Hen Hem Htr Hc. unfold validateAndApplyBenchmarks.
  assert (energy_missing input = true) as -> by (unfold energy_missing; now rewrite Hen).
  assert (water_missing input = true) as -> by (now apply seq_true).
  assert (transport_missing input = true) as ->
    by (unfold transport_missing; now rewrite Htr).
  assert (emissions_missing input = true) as ->
    by (unfold emissions_missing; now rewrite Hem).
  rewrite Hrm.
  destruct (projectName_missing input); cbn -[Qdiv Qmult];
    rewrite ?Hrm, ?Hem; repeat split; eexists; reflexivity.
Qed.

(** The hotspots of that record: 218 kg from the benchmark energy, 12.42
    from the benchmark transport and 1.72 from the benchmark water, out of
    232.14. *)
Lemma hotspots_of_benchmarks (v : LCAInput.t) :
  energy v = [EnergyInput.mk "electricity" (1000 / 1000 * 500) "kWh"] ->
  emissions v = [] ->
  WaterUsage.consumption (water v) = 1000 / 1000 * 5 ->
  transport v = [Transport.mk Transport.truck 200 1000] ->
  exists hs,
    identifyHotspots v = Some hs
    /\ map Hotspot.area hs
       = ["Energy Consumption"; "Transportation"; "Water Usage"]
    /\ map Hotspot.contribution hs = [94; 5; 1].
Proof.
  destruct v as [pn pt rm en em [c d rc u] tr ws cn].
  cbn [energy emissions water transport WaterUsage.consumption].
  intros -> -> -> ->.
  eexists. split; [vm_compute; reflexivity|].
  split; reflexivity.
Qed.

(** C6: with every list empty and no water consumption,
    [generateLCAResult] has a result; its warnings begin with those for
    Energy, Water and Transport, and it holds three impacts, the three
    hotspots of the imputed record and three goal alignments. *)
Theorem empty_input_result (input : LCAInput.t)
    (aiRecommendations : option (list string)) (now : string) :
  rawMaterials input = [] -> energy input = [] -> emissions input = [] ->
  transport input = [] -> WaterUsage.consumption (water input) == 0 ->
  exists r,
    generateLCAResult input aiRecommendations now = Some r
    /\ (3 <= length (LCAResult.validationWarnings r))%nat
    /\ (exists rest,
           map ValidationWarning.field (LCAResult.validationWarnings r)
           = "Energy" :: "Water" :: "Transport" :: rest)
    /\ length (LCAResult.impacts r) = 3%nat
    /\ map Hotspot.area (LCAResult.hotspots r)
       = ["Energy Consumption"; "Transportation"; "Water Usage"]
    /\ map SDGAlignment.sdg (LCAResult.sdgAlignments r) = [9; 12; 13]%Z.
Proof.
  intros Hrm Hen Hem Htr Hc.
  destruct (generateLCAResult_some input aiRecommendations now)
    as (r & Hr & _ & Hws & Hhs & Himp & Hsdg).
  destruct (validate_empty_lists input Hrm Hen Hem Htr Hc)
    as (_ & Hen' & Hem' & Hc' & _ & Htr' & rest & Hfields).
  destruct (hotspots_of_benchmarks _ Hen' Hem' Hc' Htr') as (hs & Hhs' & Harea & _).
  rewrite Hhs' in Hhs. injection Hhs as Heq.
  exists r. split; [exact Hr|].
  rewrite Hws, <- Heq.
  split.
  { rewrite <- (length_map ValidationWarning.field), Hfields. cbn. lia. }
  split; [eexists; exact Hfields|].
  repeat split; assumption.
Qed.

Lemma empty_input_result_witness :
  exists r,
    generateLCAResult empty_input None "2026-01-01T00:00:00.000Z" = Some r
    /\ (3 <= length (LCAResult.validationWarnings r))%nat
    /\ (exists rest,
           map ValidationWarning.field (LCAResult.validationWarnings r)
           = "Energy" :: "Water" :: "Transport" :: rest)
    /\ length (LCAResult.impacts r) = 3%nat
    /\ map Hotspot.area (LCAResult.hotspots r)
       = ["Energy Consumption"; "Transportation"; "Water Usage"]
    /\ map SDGAlignment.sdg (LCAResult.sdgAlignments r) = [9; 12; 13]%Z.
Proof.
  apply (empty_input_result empty_input); reflexivity.
Defined.

(** ** The caller's record is not written to *)

Section StoreFrame.

Local Abbreviation normalise := validateAndApplyBenchmarks.

Import Store.

Implicit Types (σ : gmap loc object) (p q a : loc) (o : object).

Lemma fresh_unused σ : σ !! fresh (dom σ) = None.
Proof. apply not_elem_of_dom, is_fresh. Qed.

Lemma get_insert_fresh {A} (sel : object -> option A) σ a o x r :
  σ !! a = None -> get sel σ x = Some r -> get sel (<[a := o]> σ) x = Some r.
Proof.
  unfold get. intros Ha H.
  destruct (σ !! x) as [c|] eqn:Hx; [|discriminate].
  rewrite lookup_insert_ne by congruence. now rewrite Hx.
Qed.

Lemma get_alter {A} (sel : object -> option A) (f : object -> object) σ q x r :
  (forall c, is_Some (sel c) -> f c = c) ->
  get sel σ x = Some r -> get sel (alter f q σ) x = Some r.
Proof.
  unfold get. intros Hf H.
  destruct (σ !! x) as [c|] eqn:Hx; [|discriminate]. cbn in H.
  rewrite lookup_alter. case_decide as Hqx.
  - subst x. rewrite Hx. cbn. rewrite Hf; eauto.
  - rewrite Hx. exact H.
Qed.

Lemma get_mono {A} (sel : object -> option A) σ σ' x r :
  σ ⊆ σ' -> get sel σ x = Some r -> get sel σ' x = Some r.
Proof.
  unfold get. intros Hsub H.
  destruct (σ !! x) as [c|] eqn:Hx; [|discriminate].
  now rewrite (lookup_weaken _ _ _ _ Hx Hsub).
Qed.

Lemma get_opt_mono {A} (sel : object -> option A) σ σ' x r :
  σ ⊆ σ' -> get_opt sel σ x = Some r -> get_opt sel σ' x = Some r.
Proof.
  unfold get_opt. intros Hsub H. destruct x as [x|]; [|exact H].
  destruct (get sel σ x) as [c|] eqn:Hx; [|discriminate].
  now rewrite (get_mono _ _ _ _ _ Hsub Hx).
Qed.

Lemma get_opt_alter {A} (sel : object -> option A) (f : object -> object)
    σ q x r :
  (forall c, is_Some (sel c) -> f c = c) ->
  get_opt sel σ x = Some r -> get_opt sel (alter f q σ) x = Some r.
Proof.
  unfold get_opt. intros Hf H. destruct x as [x|]; [|exact H].
  destruct (get sel σ x) as [c|] eqn:Hx; [|discriminate].
  now rewrite (get_alter _ _ _ _ _ _ Hf Hx).
Qed.

(** Reading a record again from a larger store gives the same value. *)
Lemma read_input_mono σ σ' p input :
  σ ⊆ σ' -> read_input σ p = Some input -> read_input σ' p = Some input.
Proof.
  unfold read_input. intros Hsub H.
  destruct (σ !! p) as [[pn pt rm en em wa tr ws cn| | | | | |]|] eqn:Hp;
    try discriminate.
  rewrite (lookup_weaken _ _ _ _ Hp Hsub).
  destruct (get as_materials σ rm) as [rmv|] eqn:Hrm; [|discriminate].
  destruct (get as_energy σ en) as [env|] eqn:Hen; [|discriminate].
  destruct (get as_emissions σ em) as [emv|] eqn:Hem; [|discriminate].
  destruct (get as_water σ wa) as [wav|] eqn:Hwa; [|discriminate].
  destruct (get as_transport σ tr) as [trv|] eqn:Htr; [|discriminate].
  destruct (get_opt as_waste σ ws) as [wsv|] eqn:Hws; [|discriminate].
  rewrite (get_mono _ _ _ _ _ Hsub Hrm), (get_mono _ _ _ _ _ Hsub Hen),
    (get_mono _ _ _ _ _ Hsub Hem), (get_mono _ _ _ _ _ Hsub Hwa),
    (get_mono _ _ _ _ _ Hsub Htr), (get_opt_mono _ _ _ _ _ Hsub Hws).
  exact H.
Qed.

(** [{ ...input }]: the copy reads as the original. *)
Lemma read_input_clone σ p o input :
  σ !! p = Some o -> read_input σ p = Some input ->
  read_input (<[fresh (dom σ) := o]> σ) (fresh (dom σ)) = Some input.
Proof.
  intros Hp H.
  pose proof (read_input_mono σ (<[fresh (dom σ) := o]> σ) p input
                (insert_subseteq _ _ _ (fresh_unused σ)) H) as H'.
  unfold read_input in *. rewrite lookup_insert_eq.
  rewrite lookup_insert_ne in H'
    by (intros E; rewrite <- E, fresh_unused in Hp; discriminate).
  rewrite Hp in H'. exact H'.
Qed.

Ltac sel_solver :=
  intros [] [? ?]; first [discriminate | reflexivity].

Ltac read_fields H :=
  let rmv := fresh "rmv" in let env := fresh "env" in
  let emv := fresh "emv" in let wav := fresh "wav" in
  let trv := fresh "trv" in let wsv := fresh "wsv" in
  match type of H with
  | context [get as_materials ?s ?rm] =>
      destruct (get as_materials s rm) as [rmv|] eqn:?Hrm; [|discriminate]
  end;
  match type of H with
  | context [get as_energy ?s ?en] =>
      destruct (get as_energy s en) as [env|] eqn:?Hen; [|discriminate]
  end;
  match type of H with
  | context [get as_emissions ?s ?em] =>
      destruct (get as_emissions s em) as [emv|] eqn:?Hem; [|discriminate]
  end;
  match type of H with
  | context [get as_water ?s ?wa] =>
      destruct (get as_water s wa) as [wav|] eqn:?Hwa; [|discriminate]
  end;
  match type of H with
  | context [get as_transport ?s ?tr] =>
      destruct (get as_transport s tr) as [trv|] eqn:?Htr; [|discriminate]
  end;
  match type of H with
  | context [get_opt as_waste ?s ?ws] =>
      destruct (get_opt as_waste s ws) as [wsv|] eqn:?Hws; [|discriminate]
  end;
  cbn [mbind option_bind] in H; injection H as <-.

Lemma get_kept {A} (sel : object -> option A) (f : object -> object)
    σ q a o x r :
  (forall c, is_Some (sel c) -> f c = c) ->
  σ !! a = None -> get sel σ x = Some r ->
  get sel (alter f q (<[a := o]> σ)) x = Some r.
Proof.
  intros Hf Ha H. apply get_alter; [exact Hf|]. now apply get_insert_fresh.
Qed.

Lemma get_opt_kept {A} (sel : object -> option A) (f : object -> object)
    σ q a o x r :
  (forall c, is_Some (sel c) -> f c = c) ->
  σ !! a = None -> get_opt sel σ x = Some r ->
  get_opt sel (alter f q (<[a := o]> σ)) x = Some r.
Proof.
  intros Hf Ha H. apply get_opt_alter; [exact Hf|].
  apply (get_opt_mono sel σ); [now apply insert_subseteq | exact H].
Qed.

Lemma get_new {A} (sel : object -> option A) (f : object -> object)
    σ q a o r :
  a <> q -> sel o = Some r ->
  get sel (alter f q (<[a := o]> σ)) a = Some r.
Proof.
  intros Haq Hsel. unfold get.
  rewrite lookup_alter_ne, lookup_insert_eq by congruence. exact Hsel.
Qed.

Ltac frame_solver :=
  first [ assumption | reflexivity | intros [] [? ?]; first [discriminate | reflexivity] ].

(** The assignments to the copy. *)
Lemma read_assign_energy σ q v l :
  read_input σ q = Some v ->
  read_input
    (assign_energy q (fresh (dom σ)) (<[fresh (dom σ) := OEnergy l]> σ)) q
  = Some (set_energy l v).
Proof.
  intros H. pose proof (fresh_unused σ) as Ha.
  set (a := fresh (dom σ)) in *.
  unfold read_input in *.
  destruct (σ !! q) as [[pn pt rm en em wa tr ws cn| | | | | |]|] eqn:Hq;
    try discriminate.
  assert (a <> q) as Haq by congruence.
  read_fields H.
  unfold assign_energy. rewrite lookup_alter_eq, lookup_insert_ne, Hq by exact Haq.
  cbn [fmap option_fmap option_map].
  rewrite (get_kept as_materials _ σ q a _ rm rmv) by frame_solver.
  rewrite (get_new as_energy _ σ q a _ l) by frame_solver.
  rewrite (get_kept as_emissions _ σ q a _ em emv) by frame_solver.
  rewrite (get_kept as_water _ σ q a _ wa wav) by frame_solver.
  rewrite (get_kept as_transport _ σ q a _ tr trv) by frame_solver.
  rewrite (get_opt_kept as_waste _ σ q a _ ws wsv) by frame_solver.
  reflexivity.
Qed.

Lemma read_assign_water σ q v w :
  read_input σ q = Some v ->
  read_input
    (assign_water q (fresh (dom σ)) (<[fresh (dom σ) := OWater w]> σ)) q
  = Some (set_water w v).
Proof.
  intros H. pose proof (fresh_unused σ) as Ha.
  set (a := fresh (dom σ)) in *.
  unfold read_input in *.
  destruct (σ !! q) as [[pn pt rm en em wa tr ws cn| | | | | |]|] eqn:Hq;
    try discriminate.
  assert (a <> q) as Haq by congruence.
  read_fields H.
  unfold assign_water. rewrite lookup_alter_eq, lookup_insert_ne, Hq by exact Haq.
  cbn [fmap option_fmap option_map].
  rewrite (get_kept as_materials _ σ q a _ rm rmv) by frame_solver.
  rewrite (get_kept as_energy _ σ q a _ en env) by frame_solver.
  rewrite (get_kept as_emissions _ σ q a _ em emv) by frame_solver.
  rewrite (get_new as_water _ σ q a _ w) by frame_solver.
  rewrite (get_kept as_transport _ σ q a _ tr trv) by frame_solver.
  rewrite (get_opt_kept as_waste _ σ q a _ ws wsv) by frame_solver.
  reflexivity.
Qed.

Lemma read_assign_transport σ q v l :
  read_input σ q = Some v ->
  read_input
    (assign_transport q (fresh (dom σ))
       (<[fresh (dom σ) := OTransport l]> σ)) q
  = Some (set_transport l v).
Proof.
  intros H. pose proof (fresh_unused σ) as Ha.
  set (a := fresh (dom σ)) in *.
  unfold read_input in *.
  destruct (σ !! q) as [[pn pt rm en em wa tr ws cn| | | | | |]|] eqn:Hq;
    try discriminate.
  assert (a <> q) as Haq by congruence.
  read_fields H.
  unfold assign_transport.
  rewrite lookup_alter_eq, lookup_insert_ne, Hq by exact Haq.
  cbn [fmap option_fmap option_map].
  rewrite (get_kept as_materials _ σ q a _ rm rmv) by frame_solver.
  rewrite (get_kept as_energy _ σ q a _ en env) by frame_solver.
  rewrite (get_kept as_emissions _ σ q a _ em emv) by frame_solver.
  rewrite (get_kept as_water _ σ q a _ wa wav) by frame_solver.
  rewrite (get_new as_transport _ σ q a _ l) by frame_solver.
  rewrite (get_opt_kept as_waste _ σ q a _ ws wsv) by frame_solver.
  reflexivity.
Qed.

Lemma read_assign_projectName σ q v s :
  read_input σ q = Some v ->
  read_input (assign_projectName q s σ) q = Some (set_projectName s v).
Proof.
  intros H. unfold read_input in *.
  destruct (σ !! q) as [[pn pt rm en em wa tr ws cn| | | | | |]|] eqn:Hq;
    try discriminate.
  read_fields H.
  unfold assign_projectName. rewrite lookup_alter_eq, Hq.
  cbn [fmap option_fmap option_map].
  rewrite (get_alter as_materials _ σ q rm rmv) by frame_solver.
  rewrite (get_alter as_energy _ σ q en env) by frame_solver.
  rewrite (get_alter as_emissions _ σ q em emv) by frame_solver.
  rewrite (get_alter as_water _ σ q wa wav) by frame_solver.
  rewrite (get_alter as_transport _ σ q tr trv) by frame_solver.
  rewrite (get_opt_alter as_waste _ σ q ws wsv) by frame_solver.
  reflexivity.
Qed.

(** Objects of the initial store outlive an allocation followed by a
    write to the copy. *)
Lemma frame_alloc_assign σ0 σ q o (f : object -> object) :
  σ0 ⊆ σ -> σ0 !! q = None ->
  σ0 ⊆ alter f q (<[fresh (dom σ) := o]> σ).
Proof.
  intros Hsub Hq. apply map_subseteq_spec. intros l c Hl.
  rewrite lookup_alter_ne by congruence.
  pose proof (lookup_weaken _ _ _ _ Hl Hsub) as Hl'.
  rewrite lookup_insert_ne; [exact Hl'|].
  intros E. rewrite <- E, fresh_unused in Hl'. discriminate.
Qed.

Lemma frame_assign σ0 σ q (f : object -> object) :
  σ0 ⊆ σ -> σ0 !! q = None -> σ0 ⊆ alter f q σ.
Proof.
  intros Hsub Hq. apply map_subseteq_spec. intros l c Hl.
  rewrite lookup_alter_ne by congruence.
  exact (lookup_weaken _ _ _ _ Hl Hsub).
Qed.

Ltac step_alloc s0 q0 :=
  match goal with
  | Hv : read_input ?s q0 = Some ?v, Hsub : s0 ⊆ ?s
    |- context [?assign q0 (fresh (dom ?s)) (<[fresh (dom ?s) := ?ob]> ?s)] =>
      let Hv' := fresh "Hv" in
      let Hsub' := fresh "Hsub" in
      assert (s0 ⊆ assign q0 (fresh (dom s)) (<[fresh (dom s) := ob]> s))
        as Hsub' by (apply frame_alloc_assign; assumption);
      lazymatch ob with
      | OEnergy ?l => pose proof (read_assign_energy s q0 v l Hv) as Hv'
      | OWater ?w => pose proof (read_assign_water s q0 v w Hv) as Hv'
      | OTransport ?l => pose proof (read_assign_transport s q0 v l Hv) as Hv'
      end;
      clear Hv Hsub;
      set (assign q0 (fresh (dom s)) (<[fresh (dom s) := ob]> s)) in *
  end.

Ltac step_name s0 q0 :=
  match goal with
  | Hv : read_input ?s q0 = Some ?v, Hsub : s0 ⊆ ?s
    |- context [assign_projectName q0 ?n ?s] =>
      let Hv' := fresh "Hv" in
      let Hsub' := fresh "Hsub" in
      assert (s0 ⊆ assign_projectName q0 n s)
        as Hsub' by (apply frame_assign; assumption);
      pose proof (read_assign_projectName s q0 v n Hv) as Hv';
      clear Hv Hsub;
      set (assign_projectName q0 n s) in *
  end.

Ltac read_caller s0 p0 Hread :=
  match goal with
  | Hsub : s0 ⊆ ?s |- context [read_input ?s p0] =>
      rewrite (read_input_mono s0 s p0 _ Hsub Hread);
      cbn [mbind option_bind]
  end.

(** The store-level function returns what the function on values
    returns, in a new object, and every object of the initial store is
    still there, unchanged. *)
Lemma validate_store_spec σ p input :
  read_input σ p = Some input ->
  exists σ' q,
    Store.validateAndApplyBenchmarks σ p
    = Some (σ', q, Validated.warnings (normalise input))
    /\ σ ⊆ σ'
    /\ σ !! q = None
    /\ read_input σ' q = Some (Validated.validatedInput (normalise input)).
Proof.
  intros Hread.
  assert (exists o, σ !! p = Some o) as (o & Hp).
  { unfold read_input in Hread. destruct (σ !! p); [eauto | discriminate]. }
  unfold Store.validateAndApplyBenchmarks, normalise, alloc.
  rewrite Hp. cbn [mbind option_bind].
  pose proof (fresh_unused σ) as Hq.
  pose proof (read_input_clone σ p o input Hp Hread) as Hv.
  pose proof (insert_subseteq σ (fresh (dom σ)) o Hq) as Hsub.
  set (q := fresh (dom σ)) in *.
  set (σ1 := <[q := o]> σ) in *.
  set (tm := JS.or _ 1000).
  read_caller σ p Hread. fold tm.
  destruct (energy_missing input); cbv beta iota zeta;
    [step_alloc σ q|]; read_caller σ p Hread;
    (destruct (water_missing input); cbv beta iota zeta;
     [step_alloc σ q|]; read_caller σ p Hread);
    (destruct (transport_missing input); cbv beta iota zeta;
     [step_alloc σ q|]; read_caller σ p Hread);
    destruct (emissions_missing input);
    (destruct (projectName_missing input); cbv beta iota zeta;
     [step_name σ q|]);
    (eexists _, q; split; [reflexivity|]; split; [assumption|];
     split; [exact Hq|];
     match goal with H : read_input _ q = Some _ |- _ => exact H end).
Qed.

(** On values: the fields that no branch assigns pass through. *)
Lemma validated_passthrough (input : LCAInput.t) :
  let v := Validated.validatedInput (normalise input) in
  rawMaterials v = rawMaterials input
  /\ emissions v = emissions input
  /\ waste v = waste input
  /\ processType v = processType input
  /\ companyName v = companyName input.
Proof.
  unfold normalise. case_guards input; cbn; repeat split; reflexivity.
Qed.

(** C8: the function returns a new record and writes to no object of the
    caller: every object of the initial store, the caller's record and
    the arrays it refers to among them, is unchanged in the final store,
    the returned record lies at a location that was unused, and its
    [rawMaterials], [emissions], [waste], [processType] and [companyName]
    are those of the input. *)
Theorem validate_new_record_frame σ p input :
  read_input σ p = Some input ->
  exists σ' q,
    Store.validateAndApplyBenchmarks σ p
    = Some (σ', q, Validated.warnings (normalise input))
    /\ (forall l o, σ !! l = Some o -> σ' !! l = Some o)
    /\ σ !! q = None
    /\ read_input σ' p = Some input
    /\ read_input σ' q = Some (Validated.validatedInput (normalise input))
    /\ rawMaterials (Validated.validatedInput (normalise input))
       = rawMaterials input
    /\ emissions (Validated.validatedInput (normalise input))
       = emissions input
    /\ waste (Validated.validatedInput (normalise input)) = waste input
    /\ processType (Validated.validatedInput (normalise input))
       = processType input
    /\ companyName (Validated.validatedInput (normalise input))
       = companyName input.
Proof.
  intros Hread.
  destruct (validate_store_spec σ p input Hread)
    as (σ' & q & Hrun & Hsub & Hq & Hv).
  exists σ', q. split; [exact Hrun|].
  split; [intros l o Hl; exact (lookup_weaken _ _ _ _ Hl Hsub)|].
  split; [exact Hq|].
  split; [exact (read_input_mono _ _ _ _ Hsub Hread)|].
  split; [exact Hv|].
  exact (validated_passthrough input).
Qed.

End StoreFrame.

Lemma validate_new_record_frame_witness :
  Store.read_input example_store 1%positive = Some example_record
  /\ exists σ' q,
      Store.validateAndApplyBenchmarks example_store 1%positive
      = Some (σ', q,
              Validated.warnings (validateAndApplyBenchmarks example_record))
      /\ (forall l o, example_store !! l = Some o -> σ' !! l = Some o)
      /\ example_store !! q = None
      /\ Store.read_input σ' 1%positive = Some example_record
      /\ Store.read_input σ' q
         = Some (Validated.validatedInput
                   (validateAndApplyBenchmarks example_record))
      /\ rawMaterials
           (Validated.validatedInput
              (validateAndApplyBenchmarks example_record))
         = rawMaterials example_record
      /\ emissions
           (Validated.validatedInput
              (validateAndApplyBenchmarks example_record))
         = emissions example_record
      /\ waste
           (Validated.validatedInput
              (validateAndApplyBenchmarks example_record))
         = waste example_record
      /\ processType
           (Validated.validatedInput
              (validateAndApplyBenchmarks example_record))
         = processType example_record
      /\ companyName
           (Validated.validatedInput
              (validateAndApplyBenchmarks example_record))
         = companyName example_record.
Proof.
  assert (Store.read_input example_store 1%positive = Some example_record)
    as H by (vm_compute; reflexivity).
  split; [exact H|].
  exact (validate_new_record_frame example_store 1%positive example_record H).
Defined.
